(** * NeuroKit2 time-frequency analysis: a shallow embedding

    Source: [neurokit2/signal/signal_timefrequency.py]
    ([signal_timefrequency], [short_term_ft], [smooth_pseudo_wvd],
    [continuous_wt]).

    Conventions of the embedding.
    - Python integers are [Z]; NumPy floats are exact rationals [Q]
      (rounding error is not modelled); complex samples are pairs of
      rationals.
    - Exceptions are values of [exn]; code that can raise lives in the
      [result] monad.  Python's [ValueError] is what the specification
      calls [InvalidParameter].
    - Library primitives (FFT, Hilbert transform, window generators,
      spectrogram, wavelet transform, COLA test) are the fields of the
      classes [Numerics] and [Transforms]; every definition and theorem
      is parametric in them. *)

From Stdlib Require Import ZArith Lia QArith Qround String Ascii Bool List Sorted.
Import ListNotations.
Open Scope Z_scope.

(** ** Exceptions and the result monad *)

Inductive exn : Type :=
| ValueError (msg : string)
| TypeError
| IndexError
| ZeroDivisionError
| UnboundLocalError.

Inductive result (A : Type) : Type :=
| Ok (a : A)
| Raise (e : exn).

Arguments Ok {A} a.
Arguments Raise {A} e.

Definition bind {A B : Type} (c : result A) (k : A -> result B) : result B :=
  match c with
  | Ok a => k a
  | Raise e => Raise e
  end.

Notation "x <- c ;; k" := (bind c (fun x => k))
  (at level 61, c at next level, right associativity).
Notation "' pat <- c ;; k" :=
  (bind c (fun x => match x with pat => k end))
  (at level 61, pat pattern, c at next level, right associativity).
Notation "c ;;; k" := (bind c (fun _ => k))
  (at level 61, right associativity).

Definition is_ok {A : Type} (r : result A) : bool :=
  match r with Ok _ => true | Raise _ => false end.

(** Code whose only possible exception is [IndexError]. *)
Definition index_error_only {A : Type} (r : result A) : Prop :=
  forall e, r = Raise e -> e = IndexError.

Fixpoint mapM {A B : Type} (f : A -> result B) (l : list A) : result (list B) :=
  match l with
  | [] => Ok []
  | x :: xs => y <- f x ;; ys <- mapM f xs ;; Ok (y :: ys)
  end.

(** ** Python and NumPy building blocks *)

Module Py.

(** [range(n)]: empty when [n <= 0]. *)
Definition range (n : Z) : list Z :=
  map Z.of_nat (seq 0 (Z.to_nat n)).

(** [np.arange(start, stop)] with unit step. *)
Definition arange (start stop : Z) : list Z :=
  map (fun k => start + Z.of_nat k) (seq 0 (Z.to_nat (stop - start))).

(** [np.arange(start=0, stop, step, dtype=int)]: a zero step raises, a
    negative step yields the empty array for a non-negative [stop]. *)
Definition arange_step (stop step : Z) : result (list Z) :=
  if step =? 0 then Raise ZeroDivisionError
  else if (step <? 0) || (stop <=? 0) then Ok []
  else Ok (map (fun k => Z.of_nat k * step)
               (seq 0 (Z.to_nat ((stop + step - 1) / step)))).

(** [np.round(N / 2.0)]: halves are rounded to the even neighbour. *)
Definition round_half (N : Z) : Z :=
  let q := N / 2 in
  if N mod 2 =? 0 then q
  else if q mod 2 =? 0 then q else q + 1.

(** [int(x)] on a float: truncation toward zero. *)
Definition int_of (x : Q) : Z :=
  if Qle_bool 0 x then Qfloor x else Qceiling x.

(** NumPy element access: a negative index counts from the end, anything
    outside [-len, len) raises [IndexError]. *)
Definition index_ok (len i : Z) : bool := (- len <=? i) && (i <? len).

Definition norm_index (len i : Z) : Z := if i <? 0 then i + len else i.

Definition get {A : Type} (a : list A) (i : Z) : result A :=
  let len := Z.of_nat (length a) in
  if index_ok len i then
    match nth_error a (Z.to_nat (norm_index len i)) with
    | Some x => Ok x
    | None => Raise IndexError
    end
  else Raise IndexError.

Fixpoint update {A : Type} (a : list A) (n : nat) (v : A) : list A :=
  match a, n with
  | [], _ => []
  | _ :: xs, O => v :: xs
  | x :: xs, S n' => x :: update xs n' v
  end.

Definition set {A : Type} (a : list A) (i : Z) (v : A) : result (list A) :=
  let len := Z.of_nat (length a) in
  if index_ok len i then Ok (update a (Z.to_nat (norm_index len i)) v)
  else Raise IndexError.

(** Indexing with a float scalar, as in [a[np.round(N / 2.0)]]: NumPy
    accepts integers, slices and integer or boolean arrays only, and
    raises [IndexError] whatever the value of the float. *)
Definition get_float {A : Type} (a : list A) (i : Z) : result A :=
  Raise IndexError.

Definition set_float {A : Type} (a : list A) (i : Z) (v : A) : result (list A) :=
  Raise IndexError.

(** Fancy indexing [a[idx]] with an integer index array. *)
Definition take {A : Type} (a : list A) (idx : list Z) : result (list A) :=
  mapM (get a) idx.

(** The arguments [freq_length] / [time_length] as Python objects. *)
Inductive obj : Type :=
| None_
| Int (z : Z)
| Array (l : list Z).

(** [len(o)]: only sequences have a length. *)
Definition len (o : obj) : result Z :=
  match o with
  | Array l => Ok (Z.of_nat (length l))
  | _ => Raise TypeError
  end.

(** [int(o)]: a scalar, or an array holding exactly one element. *)
Definition int (o : obj) : result Z :=
  match o with
  | Int z => Ok z
  | Array [z] => Ok z
  | _ => Raise TypeError
  end.

End Py.

(** ** Smoothing-window lengths ([smooth_pseudo_wvd], lines 229-244) *)

Definition freq_odd_msg : string :=
  "The length of frequency smoothing window must be odd.".
Definition time_odd_msg : string :=
  "The length of time smoothing window must be odd.".

(** [np.floor(N / d)] for a positive integer divisor, then "plus one if
    window length is not odd". *)
Definition default_length (N d : Z) : Z :=
  let l := N / d in
  if l mod 2 =? 0 then l + 1 else l.

Definition default_freq_length (N : Z) : Z := default_length N 4.
Definition default_time_length (N : Z) : Z := default_length N 10.

(** One [if ... is None / elif len(...) % 2 == 0: raise] block.  On the
    explicit path the object itself is kept; its integer value is taken
    later by [int(...)] when the window is generated. *)
Definition check_length (N d : Z) (msg : string) (o : Py.obj) : result Py.obj :=
  match o with
  | Py.None_ => Ok (Py.Int (default_length N d))
  | _ =>
      n <- Py.len o ;;
      if n mod 2 =? 0 then Raise (ValueError msg) else Ok o
  end.

(** Mid-point index of a window of length [L]: [(L - 1) // 2]. *)
Definition midpt (L : Z) : Z := (L - 1) / 2.

(** ** Complex samples over exact rationals *)

Record complex : Type := Cx { re : Q; im : Q }.

Definition czero : complex := Cx 0 0.
Definition of_real (x : Q) : complex := Cx x 0.
Definition cadd (a b : complex) : complex :=
  Cx (re a + re b) (im a + im b).
Definition cmul (a b : complex) : complex :=
  Cx (re a * re b - im a * im b) (re a * im b + im a * re b).
Definition cconj (a : complex) : complex := Cx (re a) (- im a).
(** real scalar times complex *)
Definition cscale (w : Q) (a : complex) : complex := Cx (w * re a) (w * im a).

Definition csum (l : list complex) : complex := fold_left cadd l czero.
Definition qsum (l : list Q) : Q := fold_left Qplus l 0%Q.

(** ** Slice assignment *)

Module Slice.

(** Python normalises a slice bound against the length: negative bounds
    count from the end, and everything is clipped to [0, len]. *)
Definition clip (len i : Z) : Z :=
  let j := if i <? 0 then i + len else i in
  Z.max 0 (Z.min len j).

Fixpoint map_from {A : Type} (f : A -> A) (a : list A) (k lo hi : Z) : list A :=
  match a with
  | [] => []
  | x :: xs =>
      (if (lo <=? k) && (k <? hi) then f x else x)
        :: map_from f xs (k + 1) lo hi
  end.

(** [a[start:stop] = f(a[start:stop])], elementwise. *)
Definition assign {A : Type} (f : A -> A) (a : list A) (start stop : Z) : list A :=
  let len := Z.of_nat (length a) in
  map_from f a 0 (clip len start) (clip len stop).

(** [a[start:] = v]. *)
Definition fill_from {A : Type} (v : A) (a : list A) (start : Z) : list A :=
  let len := Z.of_nat (length a) in
  map_from (fun _ => v) a 0 (clip len start) len.

End Slice.

(** ** Numerical primitives taken from NumPy / SciPy / the detrending helper

    [gaussian L] stands for
    [scipy.signal.gaussian(L, L / (6 * sqrt(2 * log 2)))]; the standard
    deviation involves irrational constants and stays inside the primitive.

    [signal_detrend] is the package's own helper
    ([neurokit2/signal/signal_detrend.py], imported on line 6), called here
    with its default arguments; according to the specification it removes
    the best-fit linear trend.  It is kept abstract like the library
    routines. *)

Class Numerics : Type := {
  fft : list complex -> result (list complex);
  ifft : list complex -> result (list complex);
  signal_detrend : list complex -> result (list complex);
  hilbert : list complex -> result (list complex);
  hamming : Z -> result (list Q);
  gaussian : Z -> result (list Q)
}.

(** ** Analytic signal ([smooth_pseudo_wvd], lines 214-227) *)

Section AnalyticSignal.
Context {P : Numerics}.

Definition zeros_like (signal : list Q) : list Q := map (fun _ => 0%Q) signal.

Definition analytic_signal (signal : list Q) : result (list complex) :=
  let N := Z.of_nat (length signal) in
  (* Zero-padded signal to length 2N *)
  let signal_padded := signal ++ zeros_like signal in
  (* DFT *)
  signal_fft <- fft (map of_real signal_padded) ;;
  let signal_fft := Slice.assign (cscale 2) signal_fft 1 (N - 1) in
  let signal_fft := Slice.fill_from czero signal_fft N in
  (* Inverse FFT *)
  signal_ifft <- ifft signal_fft ;;
  let signal_ifft := Slice.fill_from czero signal_ifft N in
  (* Make analytic signal *)
  detrended <- signal_detrend signal_ifft ;;
  hilbert detrended.

(** The same construction following the words of the specification:
    every step is described pointwise by the index range it affects. *)
Fixpoint pointwise {A : Type} (f : Z -> A -> A) (a : list A) (k : Z) : list A :=
  match a with
  | [] => []
  | x :: xs => f k x :: pointwise f xs (k + 1)
  end.

Definition double_range_spec (N : Z) (X : list complex) : list complex :=
  pointwise (fun k x => if (1 <=? k) && (k <? N - 1) then cscale 2 x else x) X 0.

Definition zero_from_spec (N : Z) (X : list complex) : list complex :=
  pointwise (fun k x => if N <=? k then czero else x) X 0.

Definition analytic_signal_spec (signal : list Q) : result (list complex) :=
  let N := Z.of_nat (length signal) in
  let padded := signal ++ repeat 0%Q (length signal) in
  X <- fft (map of_real padded) ;;
  x <- ifft (zero_from_spec N (double_range_spec N X)) ;;
  d <- signal_detrend (zero_from_spec N x) ;;
  hilbert d.

End AnalyticSignal.

(** ** Smoothing windows ([smooth_pseudo_wvd], lines 229-260) *)

Section SmoothingWindows.
Context {P : Numerics}.

Definition qmax (l : list Q) : result Q :=
  match l with
  | [] => Raise (ValueError "max() arg is an empty sequence")
  | x :: xs => Ok (fold_left (fun a b => if Qle_bool a b then b else a) xs x)
  end.

(** [w /= max(w)] *)
Definition peak_normalize (w : list Q) : result (list Q) :=
  mx <- qmax w ;; Ok (map (fun x => x / mx)%Q w).

(** Both length checks in source order, then the window generation.  A
    [window_method] that is neither name leaves [freq_window] unbound, so
    the following [len(freq_window)] raises.  The Gaussian generator is
    handed the same integer length as the Hamming one. *)
Definition smoothing_windows (N : Z) (freq_length time_length : Py.obj)
           (window_method : string) : result (list Q * list Q) :=
  fl <- check_length N 4 freq_odd_msg freq_length ;;
  tl <- check_length N 10 time_odd_msg time_length ;;
  if String.eqb window_method "hamming" then
    Lf <- Py.int fl ;;
    freq_window <- hamming Lf ;;
    Lt <- Py.int tl ;;
    time_window <- hamming Lt ;;
    Ok (freq_window, time_window)
  else if String.eqb window_method "gaussian" then
    Lf <- Py.int fl ;;
    freq_window <- gaussian Lf ;;
    freq_window <- peak_normalize freq_window ;;
    Lt <- Py.int tl ;;
    time_window <- gaussian Lt ;;
    time_window <- peak_normalize time_window ;;
    Ok (freq_window, time_window)
  else Raise UnboundLocalError.

End SmoothingWindows.

(** ** SPWVD kernel: index arithmetic ([smooth_pseudo_wvd], lines 269-317)

    [N] is the signal length, [mt] and [mf] are [midpt_time] and
    [midpt_freq], [t] is the sampled time instant. *)

Module Lag.

(** [np.min([t + midpt_time - 1, N - t + midpt_time,
             np.round(N / 2.0) - 1, midpt_freq])] *)
Definition tau_max (N mt mf t : Z) : Z :=
  Z.min (t + mt - 1)
    (Z.min (N - t + mt)
       (Z.min (Py.round_half N - 1) mf)).

(** Lag list of the zero-frequency row. *)
Definition tau0 (N mt t : Z) : list Z :=
  Py.arange (- Z.min mt (N - t)) (Z.min mt (t - 1) + 1).

(** Lag list of loop iteration [m]; the Nyquist block uses the same
    bounds with [m = round(N / 2)]. *)
Definition tau (N mt t m : Z) : list Z :=
  Py.arange (- Z.min mt (N - t - m)) (Z.min mt (t - m - 1) + 1).

Definition time_pts (mt : Z) (taus : list Z) : list Z :=
  map (fun u => mt + u) taus.
Definition signal_pts (t : Z) (taus : list Z) : list Z :=
  map (fun u => t - u - 1) taus.
Definition signal_pt1 (t m : Z) (taus : list Z) : list Z :=
  map (fun u => t + m - u - 1) taus.
Definition signal_pt2 (t m : Z) (taus : list Z) : list Z :=
  map (fun u => t - m - u - 1) taus.

(** Index arrays of the Nyquist block (lines 308-312). *)
Definition nyq_time_pts (mt : Z) (taus : list Z) : list Z :=
  map (fun u => mt + u + 1) taus.
Definition nyq_pt1 (t m : Z) (taus : list Z) : list Z :=
  map (fun u => t + m - u) taus.
Definition nyq_pt2 (t m : Z) (taus : list Z) : list Z :=
  map (fun u => t - m - u) taus.

(** Guard of the Nyquist block (line 304). *)
Definition nyquist_guard (N mf t : Z) : bool :=
  let m := Py.round_half N in
  (t <=? N - m) && (m + 1 <=? t) && (m <=? mf).

End Lag.

(** ** Array accesses of one kernel column, in program order *)

Inductive access : Type :=
| SignalAt (i : Z)       (* [signal[i]], the analytic signal *)
| TimeWindowAt (i : Z)   (* [time_window[i]] *)
| FreqWindowAt (i : Z)   (* [freq_window[i]] *)
| PwvdRow (r : Z).       (* [pwvd[r, i]] written *)

Module Trace.

Definition zero_lag (N mt t : Z) : list access :=
  let taus := Lag.tau0 N mt t in
  map TimeWindowAt (Lag.time_pts mt taus)
    ++ map SignalAt (Lag.signal_pts t taus)
    ++ map SignalAt (Lag.signal_pts t taus)
    ++ [PwvdRow 0].

Definition lag_step (N mt mf nfreqbin t m : Z) : list access :=
  let taus := Lag.tau N mt t m in
  map TimeWindowAt (Lag.time_pts mt taus)
    ++ map SignalAt (Lag.signal_pt1 t m taus)
    ++ map SignalAt (Lag.signal_pt2 t m taus)
    ++ [FreqWindowAt (mf + m + 1); PwvdRow (m + 1)]
    ++ map SignalAt (Lag.signal_pt2 t m taus)
    ++ map SignalAt (Lag.signal_pt1 t m taus)
    ++ [FreqWindowAt (mf - m + 1); PwvdRow (nfreqbin - m - 1)].

(** The Nyquist block reads the time window and the signal through
    integer index arrays; it then indexes [freq_window] with the float [m],
    which stops the call before any further array access. *)
Definition nyquist (N mt mf t : Z) : list access :=
  if Lag.nyquist_guard N mf t then
    let m := Py.round_half N in
    let taus := Lag.tau N mt t m in
    map TimeWindowAt (Lag.nyq_time_pts mt taus)
      ++ map SignalAt (Lag.nyq_pt1 t m taus)
      ++ map SignalAt (Lag.nyq_pt2 t m taus)
  else [].

(** Everything one iteration of the outer [for i, t in enumerate(...)]
    loop touches. *)
Definition column (N mt mf nfreqbin t : Z) : list access :=
  zero_lag N mt t
    ++ flat_map (lag_step N mt mf nfreqbin t)
                (Py.range (Lag.tau_max N mt mf t))
    ++ nyquist N mt mf t.

(** An access is in range when its index lies in [0, len) of the array
    it addresses: [N] samples, [Lt] and [Lf] window coefficients,
    [nfreqbin] rows. *)
Definition in_range (len i : Z) : bool := (0 <=? i) && (i <? len).

Definition access_ok (N Lt Lf nfreqbin : Z) (a : access) : bool :=
  match a with
  | SignalAt i => in_range N i
  | TimeWindowAt i => in_range Lt i
  | FreqWindowAt i => in_range Lf i
  | PwvdRow r => in_range nfreqbin r
  end.

Definition column_ok (N Lt Lf nfreqbin t : Z) : bool :=
  forallb (access_ok N Lt Lf nfreqbin)
          (column N (midpt Lt) (midpt Lf) nfreqbin t).

(** What NumPy itself accepts: indices in [-len, len) of the array as
    it is at run time, whose lengths are [nS] (analytic signal), [nT],
    [nF] (windows) and [nR] (rows of [pwvd]). *)
Definition numpy_ok (nS nT nF nR : Z) (a : access) : bool :=
  match a with
  | SignalAt i => Py.index_ok nS i
  | TimeWindowAt i => Py.index_ok nT i
  | FreqWindowAt i => Py.index_ok nF i
  | PwvdRow r => Py.index_ok nR r
  end.

End Trace.

(** ** SPWVD kernel: values ([smooth_pseudo_wvd], lines 266-317)

    A column of [pwvd] is a list of [nfreqbin] complex entries; the matrix
    is the list of its columns, one per entry of [time_array].  In the
    Nyquist block the source holds [m = np.round(N / 2.0)] as a float: the
    index arrays built from it are cast with [astype(int)], but
    [freq_window[midpt_freq + m + 1]] and [pwvd[m, i]] index with the float
    itself. *)

Module Kernel.

(** [g2 = g2 / np.sum(g2)] *)
Definition normalize (g : list Q) : list Q :=
  let s := qsum g in map (fun w => w / s)%Q g.

Fixpoint zip3 (g : list Q) (a b : list complex) : list (Q * complex * complex) :=
  match g, a, b with
  | w :: g', x :: a', y :: b' => (w, x, y) :: zip3 g' a' b'
  | _, _, _ => []
  end.

(** [np.sum(g2 * a * np.conjugate(b))] *)
Definition smoothed (g : list Q) (a b : list complex) : complex :=
  csum (map (fun '(w, x, y) => cmul (cscale w x) (cconj y)) (zip3 g a b)).


Section Column.
Variables (signal : list complex) (time_window freq_window : list Q).
Variables (N nfreqbin t : Z).

Let mt := midpt (Z.of_nat (length time_window)).
Let mf := midpt (Z.of_nat (length freq_window)).

(** Lines 276-284: the zero-frequency entry. *)
Definition zero_lag_value : result complex :=
  let taus := Lag.tau0 N mt t in
  g2 <- Py.take time_window (Lag.time_pts mt taus) ;;
  let g2 := normalize g2 in
  a <- Py.take signal (Lag.signal_pts t taus) ;;
  b <- Py.take signal (Lag.signal_pts t taus) ;;
  Ok (smoothed g2 a b).

Definition zero_lag (col : list complex) : result (list complex) :=
  v <- zero_lag_value ;;
  Py.set col 0 v.

(** Lines 287-300: one iteration of [for m in range(int(tau_max))]. *)
Definition lag_step (col : list complex) (m : Z) : result (list complex) :=
  let taus := Lag.tau N mt t m in
  g2 <- Py.take time_window (Lag.time_pts mt taus) ;;
  let g2 := normalize g2 in
  (* compute positive half *)
  a <- Py.take signal (Lag.signal_pt1 t m taus) ;;
  b <- Py.take signal (Lag.signal_pt2 t m taus) ;;
  let rmm := smoothed g2 a b in
  fw <- Py.get freq_window (mf + m + 1) ;;
  col <- Py.set col (m + 1) (cscale fw rmm) ;;
  (* compute negative half *)
  b <- Py.take signal (Lag.signal_pt2 t m taus) ;;
  a <- Py.take signal (Lag.signal_pt1 t m taus) ;;
  let rmm := smoothed g2 b a in
  fw <- Py.get freq_window (mf - m + 1) ;;
  Py.set col (nfreqbin - m - 1) (cscale fw rmm).

Fixpoint lag_loop (col : list complex) (ms : list Z) : result (list complex) :=
  match ms with
  | [] => Ok col
  | m :: ms' => col' <- lag_step col m ;; lag_loop col' ms'
  end.

(** Lines 302-317. *)
Definition nyquist (col : list complex) : result (list complex) :=
  if Lag.nyquist_guard N mf t then
    let m := Py.round_half N in
    let taus := Lag.tau N mt t m in
    g2 <- Py.take time_window (Lag.nyq_time_pts mt taus) ;;
    let g2 := normalize g2 in
    a <- Py.take signal (Lag.nyq_pt1 t m taus) ;;
    b <- Py.take signal (Lag.nyq_pt2 t m taus) ;;
    let x := smoothed g2 a b in
    fw <- Py.get_float freq_window (mf + m + 1) ;;
    let x := cscale fw x in
    b <- Py.take signal (Lag.nyq_pt2 t m taus) ;;
    a <- Py.take signal (Lag.nyq_pt1 t m taus) ;;
    let y := smoothed g2 b a in
    fw <- Py.get_float freq_window (mf - m + 1) ;;
    let y := cscale fw y in
    Py.set_float col m (cscale (1 # 2) (cadd x y))
  else Ok col.

(** One pass of the outer loop body on a zero-initialised column. *)
Definition column : result (list complex) :=
  let col := repeat czero (Z.to_nat nfreqbin) in
  col <- zero_lag col ;;
  col <- lag_loop col (Py.range (Lag.tau_max N mt mf t)) ;;
  nyquist col.

End Column.

(** The matrix before the frequency projection: all columns, in the
    order of [time_array]; the first failing column aborts the call. *)
Definition kernel (signal : list complex) (time_window freq_window : list Q)
           (N nfreqbin : Z) (time_array : list Z) : result (list (list complex)) :=
  mapM (column signal time_window freq_window N nfreqbin) time_array.

End Kernel.

(** ** [smooth_pseudo_wvd] *)

Section SmoothPseudoWVD.
Context {P : Numerics}.

(** [1 / sampling_rate] *)
Definition py_inverse (x : Z) : result Q :=
  if x =? 0 then Raise ZeroDivisionError else Ok (1 / inject_Z x)%Q.

(** [0.5 * np.arange(nfreqbin, dtype=float) / N] *)
Definition frequency_axis (nfreqbin N : Z) : list Q :=
  map (fun k => (1 # 2) * inject_Z k / inject_Z N)%Q (Py.range nfreqbin).

(** [np.real(np.fft.fft(pwvd, axis=0))], column by column. *)
Definition project (cols : list (list complex)) : result (list (list Q)) :=
  mapM (fun col => X <- fft col ;; Ok (map re X)) cols.

Definition smooth_pseudo_wvd (signal : list Q) (sampling_rate : Z)
           (freq_length time_length : Py.obj) (segment_step : Z)
           (nfreqbin : option Z) (window_method : string)
  : result (list Q * list Z * list (list Q)) :=
  (* Define parameters *)
  let N := Z.of_nat (length signal) in
  sample_spacing <- py_inverse sampling_rate ;;
  let nfreqbin := match nfreqbin with None => 300 | Some n => n end in
  (* Make analytic signal *)
  signal <- analytic_signal signal ;;
  (* Create smoothing windows in time and frequency *)
  '(freq_window, time_window) <-
      smoothing_windows N freq_length time_length window_method ;;
  (* Create arrays *)
  time_array <- Py.arange_step N segment_step ;;
  let frequency_array := frequency_axis nfreqbin N in
  (if nfreqbin <? 0
   then Raise (ValueError "negative dimensions are not allowed")
   else Ok tt) ;;;
  (* Calculate pwvd *)
  pwvd <- Kernel.kernel signal time_window freq_window N nfreqbin time_array ;;
  pwvd <- project pwvd ;;
  Ok (frequency_array, time_array, pwvd).

End SmoothPseudoWVD.

(** ** STFT and CWT wrappers: library calls as logged events

    The wrappers call into SciPy and Matplotlib.  Each call is recorded in
    a log, so that "what ran before the exception" is a property of the
    returned value.  The plotting blocks are not guarded in the source: an
    exception raised while drawing replaces the value about to be
    returned. *)

Inductive event : Type :=
| CallHann (nperseg : Z)
| CallCheckCOLA (nperseg overlap : Z)
| CallSpectrogram (fs nperseg : Z) (noverlap : option Z)
| CallCWT (fs : Z) (nfreq : nat)
| CallPlot (title : string).

Definition io (A : Type) : Type := (list event * result A)%type.

Definition ret {A : Type} (a : A) : io A := ([], Ok a).
Definition raise {A : Type} (e : exn) : io A := ([], Raise e).
Definition call {A : Type} (ev : event) (r : result A) : io A := ([ev], r).
Definition lift {A : Type} (r : result A) : io A := ([], r).

Definition iobind {A B : Type} (c : io A) (k : A -> io B) : io B :=
  match c with
  | (log, Ok a) => let (log', r) := k a in (log ++ log', r)
  | (log, Raise e) => (log, Raise e)
  end.

Notation "x <~ c ;; k" := (iobind c (fun x => k))
  (at level 61, c at next level, right associativity).
Notation "' pat <~ c ;; k" :=
  (iobind c (fun x => match x with pat => k end))
  (at level 61, pat pattern, c at next level, right associativity).
Notation "c ~;; k" := (iobind c (fun _ => k))
  (at level 61, right associativity).

(** [max_frequency] is a float that may be [np.inf]. *)
Inductive bound : Type :=
| Finite (q : Q)
| Infinity.

Definition matrix : Type := list (list complex).

(** The SciPy and Matplotlib entry points used by the wrappers.
    [cwt signal fs freq] stands for
    [scipy.signal.cwt(signal, morlet2, widths, w=6)] with
    [widths = 6 * fs / (2 * freq * pi)].  [plot title time f z] stands for
    the Matplotlib calls that draw the figure of that title from the time
    axis, the frequency axis and the magnitudes of [z]; like every library
    call it may raise (no display backend, arrays whose shapes do not
    fit). *)
Class Transforms : Type := {
  hann : Z -> result (list Q);
  check_COLA : list Q -> Z -> Z -> result bool;
  spectrogram : list Q -> Z -> Z -> option Z -> result (list Q * list Q * matrix);
  cwt : list Q -> Z -> list Q -> result matrix;
  plot : string -> list Q -> list Q -> matrix -> result unit
}.

Module NumPy.

(** [np.fft.rfftfreq(n, d)] with [d = 1 / fs]:
    [val = 1 / (n * d)], entries [k * val] for [k = 0 .. n // 2]. *)
Definition rfftfreq (n fs : Z) : list Q :=
  let val := (1 / (inject_Z n * (1 / inject_Z fs)))%Q in
  map (fun k => inject_Z k * val)%Q (Py.range (n / 2 + 1)).

Fixpoint set_last (l : list Q) (v : Q) : list Q :=
  match l with
  | [] => []
  | [_] => [v]
  | x :: xs => x :: set_last xs v
  end.

(** [np.linspace(start, stop, num)] with the end point included. *)
Definition linspace (start stop : Q) (num : Z) : result (list Q) :=
  if num <? 0
  then Raise (ValueError "Number of samples must be non-negative.")
  else
    let step := ((stop - start) / inject_Z (num - 1))%Q in
    let y := map (fun k => inject_Z k * step + start)%Q (Py.range num) in
    Ok (if 1 <? num then set_last y stop else y).

End NumPy.


Definition lower_ascii (c : ascii) : ascii :=
  let n := nat_of_ascii c in
  if (Nat.leb 65 n && Nat.leb n 90)%bool then ascii_of_nat (n + 32) else c.

(** [str.lower()] on ASCII text. *)
Fixpoint lower (s : string) : string :=
  match s with
  | EmptyString => EmptyString
  | String c s' => String (lower_ascii c) (lower s')
  end.

Definition str_in (s : string) (l : list string) : bool :=
  existsb (String.eqb s) l.

(** ** The plotted band of the STFT ([short_term_ft], lines 149-151)

    [frequency] is the axis returned by the spectrogram and [stft] the list
    of its rows, one per frequency. *)

Module Band.

(** [x > min_frequency] *)
Definition above (min_frequency x : Q) : bool := negb (Qle_bool x min_frequency).

(** [x < max_frequency] *)
Definition below (max_frequency x : Q) : bool := negb (Qle_bool max_frequency x).

(** [a[start:stop]] *)
Definition slice {A : Type} (a : list A) (start stop : Z) : list A :=
  let len := Z.of_nat (length a) in
  let lo := Slice.clip len start in
  let hi := Slice.clip len stop in
  firstn (Z.to_nat (hi - lo)) (skipn (Z.to_nat lo) a).

(** [len(frequency) - len(frequency[frequency > min_frequency])] *)
Definition lower_bound (frequency : list Q) (min_frequency : Q) : Z :=
  Z.of_nat (length frequency)
  - Z.of_nat (length (filter (above min_frequency) frequency)).

(** [frequency[(frequency > min_frequency) & (frequency < max_frequency)]] *)
Definition f (frequency : list Q) (min_frequency max_frequency : Q) : list Q :=
  filter (fun x => above min_frequency x && below max_frequency x) frequency.

(** [stft[lower_bound:lower_bound + len(f)]] *)
Definition z {A : Type} (frequency : list Q) (stft : list A)
           (min_frequency max_frequency : Q) : list A :=
  let lb := lower_bound frequency min_frequency in
  slice stft lb (lb + Z.of_nat (length (f frequency min_frequency max_frequency))).

End Band.

Definition cola_msg : string :=
  "The Constant OverLap Add (COLA) constraint is not met".

Section Wrappers.
Context {T : Transforms}.

(** Lines 125-169. *)
Definition short_term_ft (signal : list Q) (sampling_rate : Z)
           (min_frequency max_frequency : Q) (overlap : option Z)
           (nperseg : Z) (show : bool) : io (list Q * list Q * matrix) :=
  (* Check COLA *)
  match overlap with
  | Some ov =>
      w <~ call (CallHann nperseg) (hann nperseg) ;;
      cola <~ call (CallCheckCOLA nperseg ov) (check_COLA w nperseg ov) ;;
      if negb cola then raise (ValueError cola_msg) else ret tt
  | None => ret tt
  end ~;;
  ' (frequency, time, stft) <~
      call (CallSpectrogram sampling_rate nperseg overlap)
           (spectrogram signal sampling_rate nperseg overlap) ;;
  (* Visualization *)
  (if show
   then
     let f := Band.f frequency min_frequency max_frequency in
     let z := Band.z frequency stft min_frequency max_frequency in
     call (CallPlot "STFT Magnitude")
          (plot "STFT Magnitude" time f z) ~;;
     call (CallPlot "Power Spectrum Density (PSD)")
          (plot "Power Spectrum Density (PSD)" time f z)
   else ret tt) ~;;
  ret (frequency, time, stft).

(** Lines 330-371. *)
Definition continuous_wt (signal : list Q) (sampling_rate : Z)
           (min_frequency max_frequency : Q) (nfreqbin : option Z)
           (show : bool) : io (list Q * list Q * matrix) :=
  let nfreqbin :=
    match nfreqbin with None => sampling_rate / 2 | Some n => n end in
  (* frequency *)
  freq <~ lift (NumPy.linspace min_frequency max_frequency nfreqbin) ;;
  (* time *)
  let time := map (fun k => inject_Z k / inject_Z sampling_rate)%Q
                  (Py.range (Z.of_nat (length signal))) in
  (* Mother wavelet = Morlet *)
  cwtm <~ call (CallCWT sampling_rate (length freq))
               (cwt signal sampling_rate freq) ;;
  (* Visualisation *)
  (if show
   then call (CallPlot "Continuous Wavelet Transform Magnitude")
             (plot "Continuous Wavelet Transform Magnitude" time freq cwtm)
   else ret tt) ~;;
  ret (freq, time, cwtm).

(** Segment length chosen by the dispatcher (lines 93-97). *)
Definition segment_length (sampling_rate : Z) (min_frequency : Q)
           (window : option Q) : Z :=
  match window with
  | Some w => Py.int_of (w * inject_Z sampling_rate)
  | None =>
      (* to capture at least 5 times slowest wave-length *)
      Py.int_of ((2 / min_frequency) * inject_Z sampling_rate)
  end.

Definition sanitize_min (min_frequency : Q) : Q :=
  if Qeq_bool min_frequency 0 then (4 # 100)%Q else min_frequency.

Definition sanitize_max (sampling_rate : Z) (max_frequency : bound) : Q :=
  match max_frequency with
  | Infinity => inject_Z (sampling_rate / 2)
  | Finite q => q
  end.

(** Lines 9-118.  A method name outside both lists leaves [frequency]
    unbound at the [return]. *)
Definition signal_timefrequency (signal : list Q) (sampling_rate : Z)
           (min_frequency : Q) (max_frequency : bound) (method : string)
           (window : option Q) (nfreqbin : option Z) (overlap : option Z)
           (show : bool) : io (list Q * list Q * matrix) :=
  let min_frequency := sanitize_min min_frequency in
  let max_frequency := sanitize_max sampling_rate max_frequency in
  if str_in (lower method) ["stft"%string] then
    let nperseg := segment_length sampling_rate min_frequency window in
    short_term_ft signal sampling_rate min_frequency max_frequency
                  overlap nperseg show
  else if str_in (lower method) ["cwt"%string; "wavelet"%string] then
    continuous_wt signal sampling_rate min_frequency max_frequency
                  None show
  else raise UnboundLocalError.

End Wrappers.

(** Number of periods of a wave of frequency [f] (Hz) inside a segment of
    [nperseg] samples taken at [fs] samples per second. *)
Definition cycles_in_segment (nperseg fs : Z) (f : Q) : Q :=
  (inject_Z nperseg / inject_Z fs * f)%Q.

(** ** Concrete primitives for running the model

    The theorems below hold for every instance of [Numerics] and
    [Transforms].  The instances here let the model be evaluated on small
    inputs: windows are given where their coefficients are rational, and
    the transforms keep shapes but not values. *)

Module Reference.

Definition nonempty {A : Type} (l : list A) : result (list A) :=
  match l with
  | [] => Raise (ValueError "Invalid number of FFT data points (0) specified.")
  | _ => Ok l
  end.

(** [scipy.signal.hamming(M)], [0.54 - 0.46 cos(2 pi n / (M - 1))], for
    the lengths at which every coefficient is rational. *)
Definition hamming_table (M : Z) : result (list Q) :=
  if M <? 0
  then Raise (ValueError "Window length M must be a non-negative integer")
  else match M with
       | 0 => Ok []
       | 1 => Ok [1%Q]
       | 2 => Ok [(2 # 25)%Q; (2 # 25)%Q]
       | 3 => Ok [(2 # 25)%Q; 1%Q; (2 # 25)%Q]
       | 5 => Ok [(2 # 25)%Q; (27 # 50)%Q; 1%Q; (27 # 50)%Q; (2 # 25)%Q]
       | _ => Raise (ValueError "coefficient not rational")
       end.

(** [scipy.signal.hann(M, sym=True)], [0.5 - 0.5 cos(2 pi n / (M - 1))],
    likewise. *)
Definition hann_table (M : Z) : result (list Q) :=
  if M <? 0
  then Raise (ValueError "Window length M must be a non-negative integer")
  else match M with
       | 0 => Ok []
       | 1 => Ok [1%Q]
       | 2 => Ok [0%Q; 0%Q]
       | 3 => Ok [0%Q; 1%Q; 0%Q]
       | 5 => Ok [0%Q; (1 # 2)%Q; 1%Q; (1 # 2)%Q; 0%Q]
       | 7 => Ok [0%Q; (1 # 4)%Q; (3 # 4)%Q; 1%Q; (3 # 4)%Q; (1 # 4)%Q; 0%Q]
       | _ => Raise (ValueError "coefficient not rational")
       end.

#[local] Instance numerics : Numerics := {
  fft := nonempty;
  ifft := nonempty;
  signal_detrend := Ok;
  hilbert := Ok;
  hamming := hamming_table;
  gaussian := fun _ => Raise (ValueError "coefficient not rational")
}.

(** Sum of the window coefficients whose index is congruent to [j]
    modulo [step]: the [j]-th overlap-add bin. *)
Definition bin_sum (win : list Q) (step j : Z) : Q :=
  qsum (map snd
            (filter (fun p => (fst p) mod step =? j)
                    (combine (Py.range (Z.of_nat (length win))) win))).

(** [scipy.signal.check_COLA] in exact arithmetic: all overlap-add bins
    carry the same sum. *)
Definition cola (win : list Q) (nperseg noverlap : Z) : result bool :=
  if nperseg <? 1 then Raise (ValueError "nperseg must be a positive integer")
  else if nperseg <=? noverlap
  then Raise (ValueError "noverlap must be less than nperseg.")
  else if negb (Z.of_nat (length win) =? nperseg)
  then Raise (ValueError "window must have length of nperseg")
  else if noverlap <? 0 then Raise TypeError
  else
    let step := nperseg - noverlap in
    Ok (forallb (fun j => Qeq_bool (bin_sum win step j) (bin_sum win step 0))
                (Py.range step)).

(** Axes of [scipy.signal.spectrogram]; the coefficient matrix is left
    empty. *)
Definition spectrogram_axes (signal : list Q) (fs nperseg : Z)
           (noverlap : option Z) : result (list Q * list Q * matrix) :=
  match signal with
  | [] => Ok ([], [], [])
  | _ =>
      let len := Z.of_nat (length signal) in
      let nperseg := Z.min nperseg len in
      let noverlap := match noverlap with None => nperseg / 8 | Some n => n end in
      if nperseg <? 1 then Raise (ValueError "nperseg must be a positive integer")
      else if nperseg <=? noverlap
      then Raise (ValueError "noverlap must be less than nperseg.")
      else Ok (NumPy.rfftfreq nperseg fs, [], [])
  end.

#[local] Instance transforms : Transforms := {
  hann := hann_table;
  check_COLA := cola;
  spectrogram := spectrogram_axes;
  cwt := fun signal _ freq => Ok (map (fun _ => map (fun _ => czero) signal) freq);
  plot := fun _ _ _ _ => Ok tt
}.

(** The same routines without a working display: every figure fails. *)
#[local] Instance headless : Transforms := {
  hann := hann_table;
  check_COLA := cola;
  spectrogram := spectrogram_axes;
  cwt := fun signal _ freq => Ok (map (fun _ => map (fun _ => czero) signal) freq);
  plot := fun _ _ _ _ => Raise (ValueError "no display")
}.

End Reference.

(** * Properties *)

(** Linear arithmetic with floor division and remainders. *)
Ltac dlia := Z.div_mod_to_equations; lia.

(** ** The result monad *)

Lemma bind_ok {A B : Type} (c : result A) (k : A -> result B) (b : B) :
  bind c k = Ok b -> exists a, c = Ok a /\ k a = Ok b.
Proof.
  destruct c as [a | e]; simpl; intros H; [eauto | discriminate].
Qed.

Lemma mapM_ok_length {A B : Type} (f : A -> result B) (l : list A) (r : list B) :
  mapM f l = Ok r -> length r = length l.
Proof.
  revert r; induction l as [| x xs IH]; simpl; intros r H.
  - inversion H; reflexivity.
  - apply bind_ok in H as (y & _ & H).
    apply bind_ok in H as (ys & Hys & H).
    inversion H; subst; simpl; f_equal; auto.
Qed.


Lemma mapM_ok_in {A B : Type} (f : A -> result B) (l : list A) (r : list B) :
  mapM f l = Ok r -> forall x, In x l -> exists y, f x = Ok y.
Proof.
  revert r; induction l as [| a xs IH]; simpl; intros r H x Hx; [contradiction |].
  apply bind_ok in H as (b & Hb & H).
  apply bind_ok in H as (ys & Hys & _).
  destruct Hx as [<- | Hx]; [eauto | eapply IH; eauto].
Qed.

Lemma mapM_total {A B : Type} (f : A -> result B) (l : list A) :
  Forall (fun x => exists y, f x = Ok y) l -> exists r, mapM f l = Ok r.
Proof.
  induction 1 as [| x xs (y & Hy) _ (r & Hr)]; simpl.
  - eauto.
  - rewrite Hy, Hr; simpl; eauto.
Qed.

(** ** Default window lengths *)

Lemma default_length_odd (N d : Z) : Z.odd (default_length N d) = true.
Proof.
  unfold default_length.
  destruct (Z.eqb_spec ((N / d) mod 2) 0) as [E | E].
  - rewrite Z.odd_add, <- Z.negb_even, Zeven_mod, E; reflexivity.
  - rewrite <- Z.negb_even, Zeven_mod.
    destruct (Z.eqb_spec ((N / d) mod 2) 0); [contradiction | reflexivity].
Qed.

Lemma floor_quotient (N : Z) (d : positive) :
  Qfloor (inject_Z N / inject_Z (Zpos d)) = N / Zpos d.
Proof.
  unfold Qfloor, Qdiv, Qinv, Qmult, inject_Z; simpl.
  rewrite Z.mul_1_r; reflexivity.
Qed.

(** C6.  With no explicit window lengths, the frequency window gets length
    floor(N/4) and the time window floor(N/10), each incremented by one
    when even; both are odd, and these are the lengths handed to the
    window generator. *)
Theorem default_window_lengths_odd {P : Numerics} (signal : list Q) :
  let N := Z.of_nat (length signal) in
  let Lf := default_freq_length N in
  let Lt := default_time_length N in
  let floor4 := Qfloor (inject_Z N / 4) in
  let floor10 := Qfloor (inject_Z N / 10) in
  Lf = (if Z.even floor4 then floor4 + 1 else floor4) /\
  Lt = (if Z.even floor10 then floor10 + 1 else floor10) /\
  Z.odd Lf = true /\ Z.odd Lt = true /\
  check_length N 4 freq_odd_msg Py.None_ = Ok (Py.Int Lf) /\
  check_length N 10 time_odd_msg Py.None_ = Ok (Py.Int Lt) /\
  smoothing_windows N Py.None_ Py.None_ "hamming" =
    (freq_window <- hamming Lf ;;
     time_window <- hamming Lt ;;
     Ok (freq_window, time_window)).
Proof.
  intros N Lf Lt floor4 floor10.
  assert (E4 : floor4 = N / 4) by apply (floor_quotient N 4).
  assert (E10 : floor10 = N / 10) by apply (floor_quotient N 10).
  repeat split.
  - rewrite E4; unfold Lf, default_freq_length, default_length.
    rewrite Zeven_mod; reflexivity.
  - rewrite E10; unfold Lt, default_time_length, default_length.
    rewrite Zeven_mod; reflexivity.
  - apply default_length_odd.
  - apply default_length_odd.
Qed.

(** ** Explicit window lengths *)

Lemma check_length_scalar (N d z : Z) (msg : string) :
  check_length N d msg (Py.Int z) = Raise TypeError.
Proof. reflexivity. Qed.

Lemma check_length_even_sized (N d : Z) (msg : string) (l : list Z) :
  Z.of_nat (length l) mod 2 = 0 ->
  check_length N d msg (Py.Array l) = Raise (ValueError msg).
Proof.
  intros H; unfold check_length; simpl; rewrite H; reflexivity.
Qed.

(** C3.  The parity test looks at [len(freq_length)], not at the requested
    length: a one-element array holding the even length 12 passes both
    checks, and a 12-point window is generated without any error. *)
Theorem even_length_request_not_rejected {P : Numerics} :
  check_length 50 4 freq_odd_msg (Py.Array [12]) = Ok (Py.Array [12]) /\
  check_length 50 10 time_odd_msg (Py.Array [12]) = Ok (Py.Array [12]) /\
  smoothing_windows 50 (Py.Array [12]) Py.None_ "hamming" =
    (freq_window <- hamming 12 ;;
     time_window <- hamming 5 ;;
     Ok (freq_window, time_window)) /\
  Z.even 12 = true.
Proof. repeat split. Qed.

(** ** Analytic signal: slice assignments against index ranges *)

Lemma map_from_pointwise {A : Type} (f : A -> A) (a : list A) (k lo hi : Z) :
  Slice.map_from f a k lo hi =
  pointwise (fun j x => if (lo <=? j) && (j <? hi) then f x else x) a k.
Proof.
  revert k; induction a as [| x xs IH]; intros k; simpl.
  - reflexivity.
  - rewrite IH; reflexivity.
Qed.

Lemma pointwise_ext {A : Type} (f g : Z -> A -> A) (a : list A) (k : Z) :
  (forall j x, k <= j < k + Z.of_nat (length a) -> f j x = g j x) ->
  pointwise f a k = pointwise g a k.
Proof.
  revert k; induction a as [| x xs IH]; intros k H; simpl.
  - reflexivity.
  - f_equal.
    + apply H; simpl length; lia.
    + apply IH; intros j y Hj; apply H; simpl length; lia.
Qed.

Lemma assign_double_range (N : Z) (X : list complex) :
  1 <= N ->
  Slice.assign (cscale 2) X 1 (N - 1) = double_range_spec N X.
Proof.
  intros HN; unfold Slice.assign, double_range_spec.
  rewrite map_from_pointwise.
  apply pointwise_ext; intros j x Hj.
  unfold Slice.clip.
  destruct (Z.ltb_spec 1 0); [lia |].
  destruct (Z.ltb_spec (N - 1) 0); [lia |].
  replace ((Z.max 0 (Z.min (Z.of_nat (length X)) 1) <=? j)
           && (j <? Z.max 0 (Z.min (Z.of_nat (length X)) (N - 1))))
    with ((1 <=? j) && (j <? N - 1)); [reflexivity |].
  destruct (Z.leb_spec 1 j), (Z.ltb_spec j (N - 1)),
    (Z.leb_spec (Z.max 0 (Z.min (Z.of_nat (length X)) 1)) j),
    (Z.ltb_spec j (Z.max 0 (Z.min (Z.of_nat (length X)) (N - 1))));
    simpl; try reflexivity; lia.
Qed.

Lemma fill_from_zero (N : Z) (X : list complex) :
  0 <= N ->
  Slice.fill_from czero X N = zero_from_spec N X.
Proof.
  intros HN; unfold Slice.fill_from, zero_from_spec.
  rewrite map_from_pointwise.
  apply pointwise_ext; intros j x Hj.
  unfold Slice.clip.
  destruct (Z.ltb_spec N 0); [lia |].
  destruct (Z.leb_spec N j),
    (Z.leb_spec (Z.max 0 (Z.min (Z.of_nat (length X)) N)) j),
    (Z.ltb_spec j (Z.of_nat (length X)));
    simpl; try reflexivity; lia.
Qed.

Lemma zeros_like_repeat (signal : list Q) :
  zeros_like signal = repeat 0%Q (length signal).
Proof.
  unfold zeros_like; induction signal; simpl; congruence.
Qed.

(** C5.  For a real signal of length N >= 2 the analytic signal is obtained
    by: zero-padding to length 2N, forward transform, doubling the spectrum
    on the index range [1, N-1), zeroing it from index N on, inverse
    transform, zeroing the result from index N on, detrending, and the
    Hilbert construction, in this order. *)
Theorem analytic_signal_steps {P : Numerics} (signal : list Q) :
  (2 <= length signal)%nat ->
  analytic_signal signal = analytic_signal_spec signal /\
  length (signal ++ zeros_like signal) = (2 * length signal)%nat.
Proof.
  intros HN; split.
  - unfold analytic_signal, analytic_signal_spec.
    rewrite zeros_like_repeat.
    destruct (fft _) as [X | e]; simpl; [| reflexivity].
    rewrite assign_double_range by lia.
    rewrite fill_from_zero by lia.
    destruct (ifft _) as [x | e]; simpl; [| reflexivity].
    rewrite fill_from_zero by lia.
    reflexivity.
  - rewrite length_app; unfold zeros_like; rewrite length_map; lia.
Qed.

Lemma analytic_signal_steps_witness :
  (2 <= length [1; 2; 3]%Q)%nat /\
  analytic_signal (P := Reference.numerics) [1; 2; 3]%Q =
  analytic_signal_spec (P := Reference.numerics) [1; 2; 3]%Q.
Proof.
  split; [simpl; lia |].
  apply (analytic_signal_steps (P := Reference.numerics) [1; 2; 3]%Q).
  simpl; lia.
Defined.

(** ** Index ranges of the kernel loop *)

Lemma in_arange (a b u : Z) : In u (Py.arange a b) <-> a <= u < b.
Proof.
  unfold Py.arange; rewrite in_map_iff; split.
  - intros (k & <- & Hk); apply in_seq in Hk; lia.
  - intros H; exists (Z.to_nat (u - a)); split; [lia |].
    apply in_seq; lia.
Qed.

Lemma in_range (n m : Z) : In m (Py.range n) <-> 0 <= m < n.
Proof.
  unfold Py.range; rewrite in_map_iff; split.
  - intros (k & <- & Hk); apply in_seq in Hk; lia.
  - intros H; exists (Z.to_nat m); split; [lia |].
    apply in_seq; lia.
Qed.

Lemma in_range_true (len i : Z) : Trace.in_range len i = true <-> 0 <= i < len.
Proof. unfold Trace.in_range; lia. Qed.

Lemma midpt_odd (L : Z) : Z.odd L = true -> L = 2 * midpt L + 1.
Proof.
  unfold midpt; intros H.
  rewrite <- Z.negb_even, Zeven_mod in H.
  destruct (Z.eqb_spec (L mod 2) 0); [discriminate |].
  dlia.
Qed.

Lemma round_half_bounds (N : Z) : N - 1 <= 2 * Py.round_half N <= N + 1.
Proof.
  unfold Py.round_half.
  destruct (Z.eqb_spec (N mod 2) 0); [dlia |].
  destruct (Z.eqb_spec ((N / 2) mod 2) 0); dlia.
Qed.

Lemma default_length_bounds (N d : Z) :
  0 < d -> 0 <= N -> 1 <= default_length N d <= N / d + 1.
Proof.
  intros Hd HN; unfold default_length.
  assert (0 <= N / d) by (apply Z.div_pos; lia).
  generalize dependent (N / d); intros q Hq.
  destruct (Z.eqb_spec (q mod 2) 0); dlia.
Qed.

(** With the default windows the Nyquist block is never entered. *)
Lemma nyquist_guard_default (N t : Z) :
  0 <= t < N ->
  Lag.nyquist_guard N (midpt (default_freq_length N)) t = false.
Proof.
  intros Ht; unfold Lag.nyquist_guard.
  pose proof (round_half_bounds N) as Hm.
  pose proof (default_length_bounds N 4 ltac:(lia) ltac:(lia)) as HL.
  fold (default_freq_length N) in HL.
  unfold midpt.
  set (m := Py.round_half N) in *.
  set (L := default_freq_length N) in *.
  destruct (Z.leb_spec t (N - m)); simpl; [| reflexivity].
  destruct (Z.leb_spec (m + 1) t); simpl; [| reflexivity].
  destruct (Z.leb_spec m ((L - 1) / 2)); [| reflexivity].
  exfalso; dlia.
Qed.

Section ColumnRanges.
Variables (N Lt Lf nfreqbin t : Z).
Hypothesis Lt_odd : Z.odd Lt = true.
Hypothesis Lf_odd : Z.odd Lf = true.
Hypothesis Lt_pos : 0 < Lt.
Hypothesis Lf_pos : 0 < Lf.

Let mt := midpt Lt.
Let mf := midpt Lf.

Lemma mt_window : 0 <= mt /\ Lt = 2 * mt + 1.
Proof. pose proof (midpt_odd Lt Lt_odd); unfold mt in *; lia. Qed.

Lemma mf_window : 0 <= mf /\ Lf = 2 * mf + 1.
Proof. pose proof (midpt_odd Lf Lf_odd); unfold mf in *; lia. Qed.

(** Row 0: every sample index lies in [0, N) and every time-window index
    in [0, Lt). *)
Lemma zero_lag_in_range (a : access) :
  0 < nfreqbin ->
  In a (Trace.zero_lag N mt t) -> Trace.access_ok N Lt Lf nfreqbin a = true.
Proof.
  intros Hn Ha; destruct mt_window as [Hmt HLt].
  unfold Trace.zero_lag, Lag.time_pts, Lag.signal_pts, Lag.tau0 in Ha.
  repeat (rewrite in_app_iff in Ha).
  repeat (rewrite map_map in Ha).
  destruct Ha as [Ha | [Ha | [Ha | Ha]]];
    try (apply in_map_iff in Ha as (u & <- & Hu); apply in_arange in Hu;
         simpl; apply in_range_true; lia).
  destruct Ha as [<- | []]; simpl; apply in_range_true; lia.
Qed.

(** Loop iteration [m]: sample indices stay in [0, N) for every [m >= 0];
    window and row indices need [m] below [tau_max]. *)
Lemma lag_step_in_range (m : Z) (a : access) :
  mf < nfreqbin ->
  0 <= m < Lag.tau_max N mt mf t ->
  In a (Trace.lag_step N mt mf nfreqbin t m) ->
  Trace.access_ok N Lt Lf nfreqbin a = true.
Proof.
  intros Hn Hm Ha.
  destruct mt_window as [Hmt HLt]; destruct mf_window as [Hmf HLf].
  unfold Lag.tau_max in Hm.
  unfold Trace.lag_step, Lag.time_pts, Lag.signal_pt1, Lag.signal_pt2, Lag.tau in Ha.
  repeat (rewrite in_app_iff in Ha).
  repeat (rewrite map_map in Ha).
  simpl In in Ha.
  repeat match type of Ha with
         | _ \/ _ => destruct Ha as [Ha | Ha]
         end;
    try (apply in_map_iff in Ha as (u & <- & Hu); apply in_arange in Hu;
         simpl; apply in_range_true; lia);
    try (subst a; simpl; apply in_range_true; lia);
    try contradiction.
Qed.

(** Without the Nyquist block, a column only performs in-range accesses
    as soon as the matrix has more than [midpt_freq] rows. *)
Lemma column_in_range :
  mf < nfreqbin ->
  Lag.nyquist_guard N mf t = false ->
  Trace.column_ok N Lt Lf nfreqbin t = true.
Proof.
  intros Hn Hg; destruct mf_window as [Hmf _].
  unfold Trace.column_ok; apply forallb_forall; intros a Ha.
  fold mt mf in Ha; unfold Trace.column in Ha.
  repeat (rewrite in_app_iff in Ha).
  destruct Ha as [Ha | [Ha | Ha]].
  - apply zero_lag_in_range; [lia | assumption].
  - apply in_flat_map in Ha as (m & Hm & Ha).
    apply in_range in Hm.
    eapply lag_step_in_range; eauto.
  - unfold Trace.nyquist in Ha; rewrite Hg in Ha; contradiction.
Qed.

End ColumnRanges.

(** Boundary safety for the default windows: for every signal length and
    every sampled instant, all accesses are in range provided [nfreqbin]
    exceeds the mid-point of the frequency window. *)
Lemma default_column_in_range (N nfreqbin t : Z) :
  0 <= t < N ->
  midpt (default_freq_length N) < nfreqbin ->
  Trace.column_ok N (default_time_length N) (default_freq_length N) nfreqbin t = true.
Proof.
  intros Ht Hn.
  pose proof (default_length_bounds N 4 ltac:(lia) ltac:(lia)).
  pose proof (default_length_bounds N 10 ltac:(lia) ltac:(lia)).
  apply column_in_range; try apply default_length_odd;
    unfold default_time_length, default_freq_length in *; try lia.
  apply nyquist_guard_default; assumption.
Qed.

Lemma arange_step_in_range (N step : Z) (ts : list Z) :
  Py.arange_step N step = Ok ts -> forall t, In t ts -> 0 <= t < N.
Proof.
  unfold Py.arange_step; intros H t Ht.
  destruct (Z.eqb_spec step 0); [discriminate |].
  destruct (Z.ltb_spec step 0); simpl in H; [inversion H; subst; contradiction |].
  destruct (Z.leb_spec N 0); inversion H; subst; clear H; [contradiction |].
  apply in_map_iff in Ht as (k & <- & Hk); apply in_seq in Hk.
  assert (Hq : Z.of_nat k < (N + step - 1) / step) by lia.
  assert (Hs : 0 < step) by lia.
  split; [lia |].
  assert (Z.of_nat k + 1 <= (N + step - 1) / step) by lia.
  assert (step * ((N + step - 1) / step) <= N + step - 1)
    by (apply Z.mul_div_le; lia).
  nia.
Qed.

(** ** The evaluator performs exactly the traced accesses *)

Lemma index_ok_true (len i : Z) : Py.index_ok len i = true <-> - len <= i < len.
Proof.
  unfold Py.index_ok; rewrite andb_true_iff, Z.leb_le, Z.ltb_lt; reflexivity.
Qed.

Lemma get_ok_inv {A : Type} (a : list A) (i : Z) (x : A) :
  Py.get a i = Ok x -> Py.index_ok (Z.of_nat (length a)) i = true.
Proof.
  unfold Py.get; destruct (Py.index_ok _ i); [reflexivity | discriminate].
Qed.

Lemma get_raise {A : Type} (a : list A) (i : Z) (e : exn) :
  Py.get a i = Raise e -> e = IndexError.
Proof.
  unfold Py.get; destruct (Py.index_ok _ i); [| congruence].
  destruct (nth_error _ _); congruence.
Qed.

Lemma get_total {A : Type} (a : list A) (i : Z) :
  Py.index_ok (Z.of_nat (length a)) i = true -> exists x, Py.get a i = Ok x.
Proof.
  intros H; unfold Py.get; rewrite H.
  destruct (nth_error a _) eqn:E; [eauto |].
  apply nth_error_None in E.
  unfold Py.index_ok, Py.norm_index in *.
  destruct (Z.ltb_spec i 0); lia.
Qed.

Lemma length_update {A : Type} (a : list A) (n : nat) (v : A) :
  length (Py.update a n v) = length a.
Proof.
  revert n; induction a as [| x xs IH]; intros [| n]; simpl; auto.
Qed.

Lemma set_ok_inv {A : Type} (a a' : list A) (i : Z) (v : A) :
  Py.set a i v = Ok a' ->
  Py.index_ok (Z.of_nat (length a)) i = true /\ length a' = length a.
Proof.
  unfold Py.set; destruct (Py.index_ok _ i); [| discriminate].
  intros H; inversion H; subst; split; [reflexivity | apply length_update].
Qed.

Lemma set_raise {A : Type} (a : list A) (i : Z) (v : A) (e : exn) :
  Py.set a i v = Raise e -> e = IndexError.
Proof.
  unfold Py.set; destruct (Py.index_ok _ i); congruence.
Qed.

Lemma take_ok_inv {A : Type} (a l : list A) (idx : list Z) :
  Py.take a idx = Ok l ->
  Forall (fun i => Py.index_ok (Z.of_nat (length a)) i = true) idx.
Proof.
  unfold Py.take; revert l; induction idx as [| i idx IH]; simpl; intros l H.
  - constructor.
  - apply bind_ok in H as (x & Hx & H).
    apply bind_ok in H as (xs & Hxs & _).
    constructor; [eapply get_ok_inv; eauto | eapply IH; eauto].
Qed.

Lemma take_raise {A : Type} (a : list A) (idx : list Z) (e : exn) :
  Py.take a idx = Raise e -> e = IndexError.
Proof.
  unfold Py.take; induction idx as [| i idx IH]; simpl; [discriminate |].
  destruct (Py.get a i) eqn:E; simpl; [| intros H; inversion H; subst; eapply get_raise; eauto].
  destruct (mapM (Py.get a) idx); simpl; [discriminate |].
  intros H; inversion H; subst; auto.
Qed.

Lemma Forall_app_intro {A : Type} (P : A -> Prop) (l1 l2 : list A) :
  Forall P l1 -> Forall P l2 -> Forall P (l1 ++ l2).
Proof. intros; apply Forall_app; split; assumption. Qed.

(** Split a [Forall] goal along the concatenations of its list. *)
Ltac forall_app :=
  repeat match goal with
         | |- Forall _ (_ ++ _) => apply Forall_app_intro
         end.

(** Peel one monadic step off a hypothesis [H : ... = Ok _], naming the
    intermediate value and its equation. *)
Tactic Notation "step_ok" hyp(H) "as" ident(x) ident(Hx) :=
  apply bind_ok in H as (x & Hx & H).

Lemma index_error_only_ok {A : Type} (a : A) : index_error_only (Ok a).
Proof. intros e H; discriminate. Qed.

Lemma index_error_only_bind {A B : Type} (c : result A) (k : A -> result B) :
  index_error_only c -> (forall a, index_error_only (k a)) ->
  index_error_only (bind c k).
Proof.
  intros Hc Hk e; destruct c as [a | e']; simpl.
  - apply Hk.
  - intros H; inversion H; subst; apply Hc; reflexivity.
Qed.

Lemma index_error_only_get {A : Type} (a : list A) (i : Z) :
  index_error_only (Py.get a i).
Proof. intros e; apply get_raise. Qed.

Lemma index_error_only_set {A : Type} (a : list A) (i : Z) (v : A) :
  index_error_only (Py.set a i v).
Proof. intros e; apply set_raise. Qed.

Lemma index_error_only_take {A : Type} (a : list A) (idx : list Z) :
  index_error_only (Py.take a idx).
Proof. intros e; apply take_raise. Qed.

Lemma index_error_only_get_float {A : Type} (a : list A) (i : Z) :
  index_error_only (Py.get_float a i).
Proof. intros e H; inversion H; reflexivity. Qed.

Lemma index_error_only_set_float {A : Type} (a : list A) (i : Z) (v : A) :
  index_error_only (Py.set_float a i v).
Proof. intros e H; inversion H; reflexivity. Qed.

Ltac index_error_only :=
  repeat first
    [ apply index_error_only_ok
    | apply index_error_only_get_float
    | apply index_error_only_set_float
    | apply index_error_only_get
    | apply index_error_only_set
    | apply index_error_only_take
    | apply index_error_only_bind; [| intros ?] ].

(** The Nyquist block cannot complete: once entered it ends at the float
    index, so a column passes it only when its guard is false. *)
Lemma nyquist_ok_inv (signal : list complex) (time_window freq_window : list Q)
      (N t : Z) (col col' : list complex) :
  Kernel.nyquist signal time_window freq_window N t col = Ok col' ->
  Lag.nyquist_guard N (midpt (Z.of_nat (length freq_window))) t = false /\
  col' = col.
Proof.
  unfold Kernel.nyquist.
  destruct (Lag.nyquist_guard _ _ _).
  - intros H.
    step_ok H as g Hg. step_ok H as a Ha. step_ok H as b Hb.
    step_ok H as fw Hfw; discriminate.
  - intros H; inversion H; auto.
Qed.

Section EvaluatorAccesses.
Variables (signal : list complex) (time_window freq_window : list Q).
Variables (N nfreqbin t : Z).

Let nS := Z.of_nat (length signal).
Let nT := Z.of_nat (length time_window).
Let nF := Z.of_nat (length freq_window).
Let mt := midpt nT.
Let mf := midpt nF.

Let ok (col : list complex) :=
  Trace.numpy_ok nS nT nF (Z.of_nat (length col)).

Lemma forall_signal (col : list complex) (idx : list Z) :
  Forall (fun i => Py.index_ok nS i = true) idx ->
  Forall (fun a => ok col a = true) (map SignalAt idx).
Proof. intros H; apply Forall_map; exact H. Qed.

Lemma forall_time (col : list complex) (idx : list Z) :
  Forall (fun i => Py.index_ok nT i = true) idx ->
  Forall (fun a => ok col a = true) (map TimeWindowAt idx).
Proof. intros H; apply Forall_map; exact H. Qed.

Lemma zero_lag_accesses (col col' : list complex) :
  Kernel.zero_lag signal time_window N t col = Ok col' ->
  length col' = length col /\
  Forall (fun a => ok col a = true) (Trace.zero_lag N mt t).
Proof.
  unfold Kernel.zero_lag, Kernel.zero_lag_value; intros H.
  step_ok H as v Hv.
  step_ok Hv as g Hg. step_ok Hv as a Ha. step_ok Hv as b Hb.
  apply set_ok_inv in H as [Hset Hlen].
  apply take_ok_inv in Hg, Ha, Hb.
  split; [assumption |].
  unfold Trace.zero_lag; forall_app;
    auto using forall_signal, forall_time.
Qed.

Lemma lag_step_accesses (col col' : list complex) (m : Z) :
  Kernel.lag_step signal time_window freq_window N nfreqbin t col m = Ok col' ->
  length col' = length col /\
  Forall (fun a => ok col a = true) (Trace.lag_step N mt mf nfreqbin t m).
Proof.
  unfold Kernel.lag_step; intros H.
  step_ok H as g Hg. step_ok H as a Ha. step_ok H as b Hb.
  step_ok H as fw Hfw. step_ok H as col1 Hcol1.
  step_ok H as b' Hb'. step_ok H as a' Ha'. step_ok H as fw' Hfw'.
  apply take_ok_inv in Hg, Ha, Hb, Hb', Ha'.
  apply get_ok_inv in Hfw, Hfw'.
  apply set_ok_inv in Hcol1 as [Hset1 Hlen1].
  apply set_ok_inv in H as [Hset2 Hlen2].
  split; [congruence |].
  rewrite Hlen1 in Hset2.
  unfold Trace.lag_step; forall_app;
    auto using forall_signal, forall_time;
    repeat constructor; assumption.
Qed.

Lemma lag_loop_accesses (ms : list Z) (col col' : list complex) :
  Kernel.lag_loop signal time_window freq_window N nfreqbin t col ms = Ok col' ->
  length col' = length col /\
  Forall (fun a => ok col a = true)
         (flat_map (Trace.lag_step N mt mf nfreqbin t) ms).
Proof.
  revert col; induction ms as [| m ms IH]; simpl; intros col H.
  - inversion H; subst; split; [reflexivity | constructor].
  - step_ok H as col1 Hx.
    apply lag_step_accesses in Hx as [Hlen Hacc].
    apply IH in H as [Hlen' Hacc'].
    split; [congruence |].
    apply Forall_app_intro; [assumption |].
    unfold ok in *; rewrite Hlen in Hacc'; assumption.
Qed.

Lemma nyquist_accesses (col col' : list complex) :
  Kernel.nyquist signal time_window freq_window N t col = Ok col' ->
  length col' = length col /\
  Forall (fun a => ok col a = true) (Trace.nyquist N mt mf t).
Proof.
  intros H; apply nyquist_ok_inv in H as [G ->].
  split; [reflexivity |].
  unfold Trace.nyquist; fold nF in G; fold mf in G; rewrite G; constructor.
Qed.

(** A column that is computed without exception has performed every
    access of its trace, each accepted by NumPy. *)
Lemma column_accesses (col : list complex) :
  Kernel.column signal time_window freq_window N nfreqbin t = Ok col ->
  length col = Z.to_nat nfreqbin /\
  Forall (fun a => Trace.numpy_ok nS nT nF (Z.of_nat (Z.to_nat nfreqbin)) a = true)
         (Trace.column N mt mf nfreqbin t).
Proof.
  unfold Kernel.column; intros H.
  step_ok H as c0 H0. step_ok H as c1 H1.
  apply zero_lag_accesses in H0 as [L0 A0].
  apply lag_loop_accesses in H1 as [L1 A1].
  apply nyquist_accesses in H as [L2 A2].
  unfold ok in *; rewrite repeat_length in *.
  rewrite L0 in *; rewrite L1 in *.
  split; [assumption |].
  unfold Trace.column; forall_app; assumption.
Qed.

Lemma lag_loop_raise (ms : list Z) (col : list complex) :
  index_error_only
    (Kernel.lag_loop signal time_window freq_window N nfreqbin t col ms).
Proof.
  revert col; induction ms as [| m ms IH]; intros col; simpl.
  - index_error_only.
  - apply index_error_only_bind; [| intros c; apply IH].
    unfold Kernel.lag_step; index_error_only.
Qed.

(** Whatever stops a column is an [IndexError]. *)
Lemma column_raise :
  index_error_only
    (Kernel.column signal time_window freq_window N nfreqbin t).
Proof.
  unfold Kernel.column.
  apply index_error_only_bind.
  { unfold Kernel.zero_lag, Kernel.zero_lag_value; index_error_only. }
  intros c0; apply index_error_only_bind; [apply lag_loop_raise |].
  intros c1; unfold Kernel.nyquist.
  destruct (Lag.nyquist_guard _ _ _); index_error_only.
Qed.

End EvaluatorAccesses.

Lemma kernel_raise (signal : list complex) (time_window freq_window : list Q)
      (N nfreqbin : Z) (time_array : list Z) :
  index_error_only
    (Kernel.kernel signal time_window freq_window N nfreqbin time_array).
Proof.
  unfold Kernel.kernel; induction time_array as [| t ts IH]; simpl.
  - index_error_only.
  - apply index_error_only_bind; [apply column_raise |].
    intros col; apply index_error_only_bind; [exact IH |].
    intros cols; index_error_only.
Qed.

(** ** In-range traces make the evaluator return *)

Lemma take_total_np {A : Type} (a : list A) (idx : list Z) :
  Forall (fun i => Py.index_ok (Z.of_nat (length a)) i = true) idx ->
  exists l, Py.take a idx = Ok l.
Proof.
  intros H; apply mapM_total.
  eapply Forall_impl; [| exact H].
  intros i Hi; apply get_total; exact Hi.
Qed.

Lemma set_total {A : Type} (a : list A) (i : Z) (v : A) :
  Py.index_ok (Z.of_nat (length a)) i = true ->
  exists a', Py.set a i v = Ok a' /\ length a' = length a.
Proof.
  intros H; unfold Py.set; rewrite H.
  eexists; split; [reflexivity | apply length_update].
Qed.

(** Decompose a [Forall] hypothesis over a concatenation of access lists. *)
Ltac split_trace H :=
  repeat match type of H with
         | Forall _ (_ ++ _) =>
             let H1 := fresh "Hacc" in
             apply Forall_app in H as [H1 H]
         end.

Section EvaluatorTotal.
Variables (signal : list complex) (time_window freq_window : list Q).
Variables (N nfreqbin t : Z).

Let nS := Z.of_nat (length signal).
Let nT := Z.of_nat (length time_window).
Let nF := Z.of_nat (length freq_window).
Let mt := midpt nT.
Let mf := midpt nF.

Let ok (col : list complex) :=
  Trace.numpy_ok nS nT nF (Z.of_nat (length col)).

Lemma signal_reads (col : list complex) (idx : list Z) :
  Forall (fun a => ok col a = true) (map SignalAt idx) ->
  exists l, Py.take signal idx = Ok l.
Proof. intros H; apply Forall_map in H; apply take_total_np; exact H. Qed.

Lemma window_reads (col : list complex) (idx : list Z) :
  Forall (fun a => ok col a = true) (map TimeWindowAt idx) ->
  exists l, Py.take time_window idx = Ok l.
Proof. intros H; apply Forall_map in H; apply take_total_np; exact H. Qed.

Lemma zero_lag_total (col : list complex) :
  Forall (fun a => ok col a = true) (Trace.zero_lag N mt t) ->
  exists col', Kernel.zero_lag signal time_window N t col = Ok col' /\
               length col' = length col.
Proof.
  unfold Trace.zero_lag; intros H; split_trace H.
  destruct (window_reads _ _ Hacc) as [g Hg].
  destruct (signal_reads _ _ Hacc0) as [a Ha].
  inversion H as [| x l Hrow _]; subst; simpl in Hrow.
  unfold Kernel.zero_lag, Kernel.zero_lag_value; fold nT; fold mt.
  rewrite Hg; simpl; rewrite Ha; simpl.
  apply set_total; exact Hrow.
Qed.

Lemma lag_step_total (col : list complex) (m : Z) :
  Forall (fun a => ok col a = true) (Trace.lag_step N mt mf nfreqbin t m) ->
  exists col',
    Kernel.lag_step signal time_window freq_window N nfreqbin t col m = Ok col' /\
    length col' = length col.
Proof.
  unfold Trace.lag_step; intros H; split_trace H.
  destruct (window_reads _ _ Hacc) as [g Hg].
  destruct (signal_reads _ _ Hacc0) as [a Ha].
  destruct (signal_reads _ _ Hacc1) as [b Hb].
  inversion Hacc2 as [| x1 l1 Hf1 Hrest1]; subst; simpl in Hf1.
  inversion Hrest1 as [| x2 l2 Hr1 _]; subst; simpl in Hr1.
  inversion H as [| x3 l3 Hf2 Hrest2]; subst; simpl in Hf2.
  inversion Hrest2 as [| x4 l4 Hr2 _]; subst; simpl in Hr2.
  destruct (get_total freq_window _ Hf1) as [fw Hfw].
  destruct (get_total freq_window _ Hf2) as [fw' Hfw'].
  unfold Kernel.lag_step; fold nT nF; fold mt mf.
  rewrite Hg; simpl; rewrite Ha; simpl; rewrite Hb; simpl.
  rewrite Hfw; simpl.
  destruct (set_total col (m + 1)
              (cscale fw (Kernel.smoothed (Kernel.normalize g) a b)) Hr1)
    as (col1 & Hcol1 & Hlen1).
  rewrite Hcol1; simpl; rewrite Hfw'; simpl.
  rewrite <- Hlen1 in Hr2.
  destruct (set_total col1 (nfreqbin - m - 1)
              (cscale fw' (Kernel.smoothed (Kernel.normalize g) b a)) Hr2)
    as (col2 & Hcol2 & Hlen2).
  exists col2; split; [assumption | congruence].
Qed.

Lemma lag_loop_total (ms : list Z) (col : list complex) :
  Forall (fun a => ok col a = true)
         (flat_map (Trace.lag_step N mt mf nfreqbin t) ms) ->
  exists col',
    Kernel.lag_loop signal time_window freq_window N nfreqbin t col ms = Ok col' /\
    length col' = length col.
Proof.
  revert col; induction ms as [| m ms IH]; intros col H.
  - exists col; split; reflexivity.
  - cbn [flat_map] in H; apply Forall_app in H as [Hm Hms].
    destruct (lag_step_total col m Hm) as (col1 & H1 & L1).
    unfold ok in Hms; rewrite <- L1 in Hms.
    destruct (IH col1 Hms) as (col2 & H2 & L2).
    exists col2; cbn [Kernel.lag_loop]; rewrite H1; simpl.
    split; [assumption | congruence].
Qed.

Lemma nyquist_total (col : list complex) :
  Lag.nyquist_guard N mf t = false ->
  Kernel.nyquist signal time_window freq_window N t col = Ok col.
Proof.
  intros G; unfold Kernel.nyquist; fold nF; fold mf; rewrite G; reflexivity.
Qed.

(** A column whose traced accesses are all accepted by NumPy, and which
    does not enter the Nyquist block, is computed without exception. *)
Lemma column_total :
  Lag.nyquist_guard N mf t = false ->
  Forall (fun a => Trace.numpy_ok nS nT nF (Z.of_nat (Z.to_nat nfreqbin)) a = true)
         (Trace.column N mt mf nfreqbin t) ->
  exists col,
    Kernel.column signal time_window freq_window N nfreqbin t = Ok col.
Proof.
  unfold Trace.column; intros G H.
  apply Forall_app in H as [H0 H]; apply Forall_app in H as [H1 H2].
  set (col0 := repeat czero (Z.to_nat nfreqbin)).
  assert (L : length col0 = Z.to_nat nfreqbin) by apply repeat_length.
  assert (Hok : forall col, length col = Z.to_nat nfreqbin ->
                  forall l,
                    Forall (fun a => Trace.numpy_ok nS nT nF
                                       (Z.of_nat (Z.to_nat nfreqbin)) a = true) l ->
                    Forall (fun a => ok col a = true) l).
  { intros col Hlen l Hl; unfold ok; rewrite Hlen; exact Hl. }
  destruct (zero_lag_total col0 (Hok col0 L _ H0)) as (c0 & E0 & L0).
  destruct (lag_loop_total _ c0 (Hok c0 (eq_trans L0 L) _ H1)) as (c1 & E1 & L1).
  exists c1; unfold Kernel.column; fold col0.
  rewrite E0; simpl; fold nT nF; fold mt mf; rewrite E1; simpl.
  apply nyquist_total; exact G.
Qed.

End EvaluatorTotal.

(** With windows of the default lengths, a signal array of at least [N]
    samples and more rows than [midpt_freq], every sampled column, and
    hence the whole kernel, is computed. *)
Lemma default_kernel_total (signal : list complex) (time_window freq_window : list Q)
      (N nfreqbin step : Z) (time_array : list Z) :
  N <= Z.of_nat (length signal) ->
  Z.of_nat (length time_window) = default_time_length N ->
  Z.of_nat (length freq_window) = default_freq_length N ->
  midpt (default_freq_length N) < nfreqbin ->
  Py.arange_step N step = Ok time_array ->
  exists cols,
    Kernel.kernel signal time_window freq_window N nfreqbin time_array = Ok cols.
Proof.
  intros HS HT HF Hn Hts; unfold Kernel.kernel.
  apply mapM_total, Forall_forall; intros t Ht.
  pose proof (arange_step_in_range _ _ _ Hts t Ht) as Hr.
  pose proof (default_column_in_range N nfreqbin t Hr Hn) as Hok.
  unfold Trace.column_ok in Hok; rewrite forallb_forall in Hok.
  apply column_total;
    [rewrite HF; apply nyquist_guard_default; exact Hr |].
  rewrite HT, HF.
  apply Forall_forall; intros a Ha; specialize (Hok a Ha).
  assert (Hrows : 0 <= nfreqbin).
  { pose proof (default_length_bounds N 4 ltac:(lia) ltac:(lia)).
    unfold default_freq_length, midpt in Hn.
    assert (0 <= (default_length N 4 - 1) / 2) by (apply Z.div_pos; lia).
    lia. }
  destruct a as [i | i | i | r]; simpl in *;
    apply in_range_true in Hok; apply index_ok_true; lia.
Qed.

(** ** Boundary safety on the listed signal lengths *)

Lemma length_range (n : Z) : length (Py.range n) = Z.to_nat n.
Proof. unfold Py.range; rewrite length_map, length_seq; reflexivity. Qed.

Lemma column_contains_row (N mt mf nfreqbin t m : Z) :
  0 <= m < Lag.tau_max N mt mf t ->
  In (PwvdRow (m + 1)) (Trace.column N mt mf nfreqbin t).
Proof.
  intros Hm; unfold Trace.column.
  apply in_or_app; right; apply in_or_app; left.
  apply in_flat_map; exists m; split; [apply in_range; assumption |].
  unfold Trace.lag_step.
  do 3 (apply in_or_app; right).
  apply in_or_app; left; right; left; reflexivity.
Qed.

Lemma arange_step_complete (N step k : Z) :
  0 < step -> 0 <= k -> k * step < N ->
  exists ts, Py.arange_step N step = Ok ts /\ In (k * step) ts.
Proof.
  intros Hs Hk HN; unfold Py.arange_step.
  destruct (Z.eqb_spec step 0); [lia |].
  destruct (Z.ltb_spec step 0); [lia |].
  destruct (Z.leb_spec N 0); [nia |]; simpl.
  eexists; split; [reflexivity |].
  apply in_map_iff; exists (Z.to_nat k); split; [f_equal; lia |].
  apply in_seq; split; [lia |]; simpl.
  assert (k + 1 <= (N + step - 1) / step); [| lia].
  apply Z.div_le_lower_bound; nia.
Qed.

(** Lengths 5, 6 and 50 with the default 300 rows: every access of every
    sampled column is in range, whatever the step. *)
Lemma short_signals_in_range (N step t : Z) (ts : list Z) :
  In N [5; 6; 50] ->
  Py.arange_step N step = Ok ts -> In t ts ->
  Trace.column_ok N (default_time_length N) (default_freq_length N) 300 t = true.
Proof.
  intros HN Hts Ht.
  apply default_column_in_range; [eapply arange_step_in_range; eauto |].
  simpl in HN; destruct HN as [<- | [<- | [<- | []]]]; reflexivity.
Qed.

(** Length 4096 with a step of 4096: the only sampled instant is t = 0,
    whose column stays within the 300 rows. *)
Lemma single_column_4096_in_range :
  Py.arange_step 4096 4096 = Ok [0] /\
  Trace.column_ok 4096 (default_time_length 4096) (default_freq_length 4096)
                  300 0 = true.
Proof. split; vm_compute; reflexivity. Qed.

(** C1.  On a signal of 4096 samples with the default windows (409 and
    1025 coefficients) and the default 300 rows, the column of the sampled
    instant t = 97 (step 1; t = 99 for step 3) reaches lag m = 299 and
    writes row 300 of a 300-row matrix: the access is out of range and the
    evaluation of the kernel stops with an IndexError, for every signal and
    all window coefficients. *)
Theorem default_rows_overflow_at_4096
        (signal : list complex) (tw fw : Z -> Q) :
  let N := 4096 in
  let Lt := default_time_length N in
  let Lf := default_freq_length N in
  let time_window := map tw (Py.range Lt) in
  let freq_window := map fw (Py.range Lf) in
  Lag.tau_max N (midpt Lt) (midpt Lf) 97 = 300 /\
  In (PwvdRow 300) (Trace.column N (midpt Lt) (midpt Lf) 300 97) /\
  In (PwvdRow 300) (Trace.column N (midpt Lt) (midpt Lf) 300 99) /\
  Trace.access_ok N Lt Lf 300 (PwvdRow 300) = false /\
  Kernel.column signal time_window freq_window N 300 97 = Raise IndexError /\
  Kernel.column signal time_window freq_window N 300 99 = Raise IndexError /\
  (exists ts, Py.arange_step N 1 = Ok ts /\ In 97 ts /\
              Kernel.kernel signal time_window freq_window N 300 ts
              = Raise IndexError) /\
  (exists ts, Py.arange_step N 3 = Ok ts /\ In 99 ts /\
              Kernel.kernel signal time_window freq_window N 300 ts
              = Raise IndexError).
Proof.
  intros N Lt Lf time_window freq_window.
  assert (HLt : Z.of_nat (length time_window) = 409).
  { unfold time_window; rewrite length_map, length_range; reflexivity. }
  assert (HLf : Z.of_nat (length freq_window) = 1025).
  { unfold freq_window; rewrite length_map, length_range; reflexivity. }
  assert (R97 : In (PwvdRow 300) (Trace.column N (midpt Lt) (midpt Lf) 300 97)).
  { apply (column_contains_row N (midpt Lt) (midpt Lf) 300 97 299).
    vm_compute; split; [discriminate | reflexivity]. }
  assert (R99 : In (PwvdRow 300) (Trace.column N (midpt Lt) (midpt Lf) 300 99)).
  { apply (column_contains_row N (midpt Lt) (midpt Lf) 300 99 299).
    vm_compute; split; [discriminate | reflexivity]. }
  assert (Stop : forall t,
             In (PwvdRow 300) (Trace.column N (midpt Lt) (midpt Lf) 300 t) ->
             Kernel.column signal time_window freq_window N 300 t
             = Raise IndexError).
  { intros t Hin.
    destruct (Kernel.column signal time_window freq_window N 300 t)
      as [col | e] eqn:E.
    - apply column_accesses in E as [_ Hacc].
      rewrite HLt, HLf in Hacc.
      rewrite Forall_forall in Hacc.
      apply Hacc in Hin; discriminate.
    - f_equal; eapply column_raise; eauto. }
  assert (StopAll : forall ts t,
             In t ts ->
             In (PwvdRow 300) (Trace.column N (midpt Lt) (midpt Lf) 300 t) ->
             Kernel.kernel signal time_window freq_window N 300 ts
             = Raise IndexError).
  { intros ts t Ht Hin.
    destruct (Kernel.kernel signal time_window freq_window N 300 ts)
      as [cols | e] eqn:E.
    - destruct (mapM_ok_in _ _ _ E t Ht) as (col & Hcol).
      rewrite (Stop t Hin) in Hcol; discriminate.
    - f_equal; eapply kernel_raise; eauto. }
  split; [reflexivity |].
  split; [exact R97 |].
  split; [exact R99 |].
  split; [reflexivity |].
  split; [exact (Stop 97 R97) |].
  split; [exact (Stop 99 R99) |].
  split.
  - destruct (arange_step_complete N 1 97) as (ts & Hts & Hin); try lia.
    exists ts; split; [exact Hts |]; split; [exact Hin |].
    exact (StopAll ts 97 Hin R97).
  - destruct (arange_step_complete N 3 33) as (ts & Hts & Hin); try lia.
    exists ts; split; [exact Hts |]; split; [exact Hin |].
    exact (StopAll ts 99 Hin R99).
Qed.

(** ** The zero-lag row *)

Lemma update_head {A : Type} (a : list A) (n : nat) (v : A) :
  n <> O -> nth_error (Py.update a n v) 0 = nth_error a 0.
Proof. destruct a, n; simpl; congruence. Qed.

Lemma set_keeps_head {A : Type} (a a' : list A) (i : Z) (v : A) :
  Py.set a i v = Ok a' ->
  Py.norm_index (Z.of_nat (length a)) i > 0 ->
  nth_error a' 0 = nth_error a 0.
Proof.
  unfold Py.set; destruct (Py.index_ok _ i); [| discriminate].
  intros H Hi; inversion H; subst; apply update_head; lia.
Qed.

Lemma set_head {A : Type} (a a' : list A) (v : A) :
  Py.set a 0 v = Ok a' -> nth_error a' 0 = Some v.
Proof.
  unfold Py.set, Py.index_ok, Py.norm_index; simpl.
  destruct a as [| x xs]; simpl; [discriminate |].
  intros H; inversion H; reflexivity.
Qed.



Lemma take_total {A : Type} (a : list A) (idx : list Z) :
  Forall (fun i => 0 <= i < Z.of_nat (length a)) idx ->
  exists l, Py.take a idx = Ok l.
Proof.
  intros H; apply mapM_total.
  eapply Forall_impl; [| exact H].
  intros i Hi; cbv beta in Hi; apply get_total; unfold Py.index_ok; lia.
Qed.

Section ZeroLagPreserved.
Variables (signal : list complex) (time_window freq_window : list Q).
Variables (N nfreqbin t : Z).

Lemma lag_step_keeps_head (col col' : list complex) (m : Z) :
  length col = Z.to_nat nfreqbin ->
  0 <= m ->
  Kernel.lag_step signal time_window freq_window N nfreqbin t col m = Ok col' ->
  length col' = Z.to_nat nfreqbin /\ nth_error col' 0 = nth_error col 0.
Proof.
  intros Hlen Hm H; unfold Kernel.lag_step in H.
  step_ok H as g Hg. step_ok H as a Ha. step_ok H as b Hb.
  step_ok H as fw Hfw. step_ok H as col1 Hcol1.
  step_ok H as b' Hb'. step_ok H as a' Ha'. step_ok H as fw' Hfw'.
  pose proof (set_ok_inv _ _ _ _ Hcol1) as [Hok1 Hlen1].
  pose proof (set_ok_inv _ _ _ _ H) as [Hok2 Hlen2].
  split; [congruence |].
  apply index_ok_true in Hok1, Hok2.
  rewrite (set_keeps_head _ _ _ _ H), (set_keeps_head _ _ _ _ Hcol1);
    [reflexivity | |];
    unfold Py.norm_index; rewrite ?Hlen1, Hlen in *.
  - destruct (Z.ltb_spec (m + 1) 0); lia.
  - destruct (Z.ltb_spec (nfreqbin - m - 1) 0); lia.
Qed.

Lemma lag_loop_keeps_head (ms : list Z) (col col' : list complex) :
  length col = Z.to_nat nfreqbin ->
  Forall (fun m => 0 <= m) ms ->
  Kernel.lag_loop signal time_window freq_window N nfreqbin t col ms = Ok col' ->
  length col' = Z.to_nat nfreqbin /\ nth_error col' 0 = nth_error col 0.
Proof.
  revert col; induction ms as [| m ms IH]; simpl; intros col Hlen Hms H.
  - inversion H; subst; auto.
  - inversion Hms as [| m' ms' Hm Hms']; subst.
    step_ok H as col1 H1.
    destruct (lag_step_keeps_head col col1 m Hlen Hm H1) as [L1 E1].
    destruct (IH col1 L1 Hms' H) as [L2 E2].
    split; [exact L2 | exact (eq_trans E2 E1)].
Qed.

Lemma nyquist_keeps_head (col col' : list complex) :
  0 <= t < N ->
  Kernel.nyquist signal time_window freq_window N t col = Ok col' ->
  nth_error col' 0 = nth_error col 0.
Proof.
  intros Ht H; apply nyquist_ok_inv in H as [_ ->]; reflexivity.
Qed.

(** Once written, row 0 of a column is never overwritten. *)
Lemma column_head (col : list complex) :
  0 <= t < N ->
  Kernel.column signal time_window freq_window N nfreqbin t = Ok col ->
  exists v, Kernel.zero_lag_value signal time_window N t = Ok v /\
            nth_error col 0 = Some v.
Proof.
  intros Ht H; unfold Kernel.column in H.
  step_ok H as c0 H0. step_ok H as c1 H1.
  unfold Kernel.zero_lag in H0. step_ok H0 as v Hv.
  exists v; split; [assumption |].
  pose proof (set_ok_inv _ _ _ _ H0) as [_ L0].
  rewrite repeat_length in L0.
  assert (Hms : Forall (fun m => 0 <= m)
                       (Py.range (Lag.tau_max N
                          (midpt (Z.of_nat (length time_window)))
                          (midpt (Z.of_nat (length freq_window))) t))).
  { apply Forall_forall; intros m Hm; apply in_range in Hm; lia. }
  destruct (lag_loop_keeps_head _ c0 c1 L0 Hms H1) as [L1 E1].
  rewrite (nyquist_keeps_head _ _ Ht H), E1.
  eapply set_head; eauto.
Qed.

End ZeroLagPreserved.

(** ** Rational sums *)

Open Scope Q_scope.

Lemma fold_cadd_re (l : list complex) (acc : complex) :
  re (fold_left cadd l acc) = fold_left Qplus (map re l) (re acc).
Proof.
  revert acc; induction l as [| x xs IH]; intros acc; simpl; [reflexivity |].
  rewrite IH; reflexivity.
Qed.

Lemma fold_cadd_im (l : list complex) (acc : complex) :
  im (fold_left cadd l acc) = fold_left Qplus (map im l) (im acc).
Proof.
  revert acc; induction l as [| x xs IH]; intros acc; simpl; [reflexivity |].
  rewrite IH; reflexivity.
Qed.


Lemma fold_qplus_zero (l : list Q) (a : Q) :
  Forall (fun x => x == 0) l -> fold_left Qplus l a == a.
Proof.
  intros H; revert a; induction H as [| x xs Hx _ IH]; intros a; simpl;
    [reflexivity |].
  rewrite IH, Hx; ring.
Qed.











Close Scope Q_scope.

(** The zero-lag entry is always computed: its lag range never leaves the
    signal or the time window. *)
Lemma zero_lag_value_total (signal : list complex) (time_window : list Q) (N t : Z) :
  N <= Z.of_nat (length signal) ->
  exists v, Kernel.zero_lag_value signal time_window N t = Ok v.
Proof.
  intros HN; unfold Kernel.zero_lag_value.
  set (L := Z.of_nat (length time_window)).
  assert (HL : 0 <= L) by (unfold L; lia).
  destruct (take_total time_window
              (Lag.time_pts (midpt L) (Lag.tau0 N (midpt L) t))) as [g Hg].
  { apply Forall_forall; intros i Hi.
    unfold Lag.time_pts, Lag.tau0 in Hi.
    apply in_map_iff in Hi as (u & <- & Hu); apply in_arange in Hu.
    fold L; unfold midpt in *; dlia. }
  destruct (take_total signal
              (Lag.signal_pts t (Lag.tau0 N (midpt L) t))) as [s Hs].
  { apply Forall_forall; intros i Hi.
    unfold Lag.signal_pts, Lag.tau0 in Hi.
    apply in_map_iff in Hi as (u & <- & Hu); apply in_arange in Hu.
    lia. }
  rewrite Hg; simpl; rewrite Hs; simpl; eauto.
Qed.







(** On that input the column of instant 3 reads signal[3], signal[2] and
    signal[1], whose powers 10, 5 and 1 are weighted by 2/25, 1 and 2/25
    over the sum 29/25: row 0 is 147/29. *)
Lemma zero_lag_row_example :
  exists cols col v,
    Kernel.kernel [Cx 1 0; Cx 0 1; Cx (-1) 2; Cx 3 (-1);
                   Cx 2 2; Cx 0 (-3); Cx 1 1; Cx (-2) 0]
                  [(2 # 25)%Q; 1%Q; (2 # 25)%Q]
                  [(2 # 25)%Q; (27 # 50)%Q; 1%Q; (27 # 50)%Q; (2 # 25)%Q]
                  8 6 [0; 3; 6] = Ok cols /\
    nth_error cols 1 = Some col /\
    nth_error col 0 = Some v /\
    (re v == 147 # 29)%Q /\ (im v == 0)%Q.
Proof.
  do 3 eexists; split; [vm_compute; reflexivity |].
  split; [reflexivity |]. split; [reflexivity |].
  split; vm_compute; reflexivity.
Qed.

(** ** The sampling rate of [smooth_pseudo_wvd] *)

Lemma arange_step_members (N step : Z) (ts : list Z) :
  0 < step ->
  Py.arange_step N step = Ok ts ->
  forall t, In t ts <-> exists k, 0 <= k /\ t = k * step /\ t < N.
Proof.
  intros Hs Hts t; split.
  - intros Ht.
    pose proof (arange_step_in_range N step ts Hts t Ht) as Hr.
    unfold Py.arange_step in Hts.
    destruct (Z.eqb_spec step 0); [lia |].
    destruct (Z.ltb_spec step 0); [lia |].
    destruct (Z.leb_spec N 0); simpl in Hts; inversion Hts; subst;
      [contradiction |].
    apply in_map_iff in Ht as (k & <- & _).
    exists (Z.of_nat k); repeat split; lia.
  - intros (k & Hk & -> & Hlt).
    destruct (arange_step_complete N step k Hs Hk Hlt) as (ts' & E & Hin).
    congruence.
Qed.

(** C9 (amended).  For every two non-zero sampling rates,
    [smooth_pseudo_wvd] returns the same result, all other arguments being
    equal.  The returned frequency axis is 0.5 * k / N for
    k = 0 .. nfreqbin - 1 and the returned time axis holds the sample
    indices 0, segment_step, 2 * segment_step, ... below N. *)
Theorem sampling_rate_irrelevant {P : Numerics}
        (signal : list Q) (r1 r2 : Z) (freq_length time_length : Py.obj)
        (segment_step : Z) (nfreqbin : option Z) (window_method : string) :
  r1 <> 0 -> r2 <> 0 ->
  let N := Z.of_nat (length signal) in
  let rows := match nfreqbin with None => 300 | Some n => n end in
  smooth_pseudo_wvd signal r1 freq_length time_length segment_step
                    nfreqbin window_method
  = smooth_pseudo_wvd signal r2 freq_length time_length segment_step
                      nfreqbin window_method /\
  forall frequency_array time_array pwvd,
    smooth_pseudo_wvd signal r1 freq_length time_length segment_step
                      nfreqbin window_method
    = Ok (frequency_array, time_array, pwvd) ->
    frequency_array
    = map (fun k => (1 # 2) * inject_Z k / inject_Z N)%Q (Py.range rows) /\
    length frequency_array = Z.to_nat rows /\
    Py.arange_step N segment_step = Ok time_array /\
    (0 < segment_step ->
     forall t, In t time_array <->
               exists k, 0 <= k /\ t = k * segment_step /\ t < N).
Proof.
  intros H1 H2 N rows; split.
  - unfold smooth_pseudo_wvd, py_inverse.
    destruct (Z.eqb_spec r1 0); [contradiction |].
    destruct (Z.eqb_spec r2 0); [contradiction |].
    reflexivity.
  - intros f ts pwvd H; unfold smooth_pseudo_wvd in H.
    step_ok H as spacing Hsp.
    step_ok H as analytic Han.
    step_ok H as windows Hwin; destruct windows as [fw tw].
    step_ok H as ts' Hts.
    step_ok H as u Hu.
    step_ok H as kernel Hk.
    step_ok H as projected Hp.
    inversion H; subst; clear H.
    repeat split.
    + unfold frequency_axis; rewrite length_map, length_range; reflexivity.
    + assumption.
    + apply arange_step_members; assumption.
    + apply arange_step_members; assumption.
Qed.

Lemma sampling_rate_irrelevant_witness :
  250 <> 0 /\ 1000 <> 0 /\
  smooth_pseudo_wvd (P := Reference.numerics) [1; 2; 3; 4; 5]%Q 250
                    Py.None_ Py.None_ 1 (Some 4) "hamming"
  = smooth_pseudo_wvd (P := Reference.numerics) [1; 2; 3; 4; 5]%Q 1000
                      Py.None_ Py.None_ 1 (Some 4) "hamming".
Proof.
  split; [lia |]; split; [lia |].
  apply (sampling_rate_irrelevant (P := Reference.numerics)
           [1; 2; 3; 4; 5]%Q 250 1000 Py.None_ Py.None_ 1 (Some 4) "hamming");
    lia.
Defined.

(** C9 as stated fails at a zero sampling rate: [1 / sampling_rate] raises
    before anything is computed, whereas the call with a non-zero rate
    returns. *)
Lemma sampling_rate_zero_differs :
  smooth_pseudo_wvd (P := Reference.numerics) [1; 2; 3; 4; 5]%Q 0
                    Py.None_ Py.None_ 1 (Some 4) "hamming"
  = Raise ZeroDivisionError /\
  is_ok (smooth_pseudo_wvd (P := Reference.numerics) [1; 2; 3; 4; 5]%Q 1000
                           Py.None_ Py.None_ 1 (Some 4) "hamming") = true /\
  smooth_pseudo_wvd (P := Reference.numerics) [1; 2; 3; 4; 5]%Q 0
                    Py.None_ Py.None_ 1 (Some 4) "hamming"
  <> smooth_pseudo_wvd (P := Reference.numerics) [1; 2; 3; 4; 5]%Q 1000
                       Py.None_ Py.None_ 1 (Some 4) "hamming".
Proof.
  split; [reflexivity |]; split; [vm_compute; reflexivity |].
  intros E.
  assert (F : is_ok (smooth_pseudo_wvd (P := Reference.numerics)
                       [1; 2; 3; 4; 5]%Q 1000
                       Py.None_ Py.None_ 1 (Some 4) "hamming") = false)
    by (rewrite <- E; reflexivity).
  vm_compute in F; discriminate.
Qed.

(** ** The logged monad *)

Lemma iobind_ok {A B : Type} (c : io A) (k : A -> io B) (b : B) :
  snd (iobind c k) = Ok b ->
  exists a, snd c = Ok a /\ snd (k a) = Ok b.
Proof.
  destruct c as [log [a | e]]; simpl.
  - destruct (k a) as [log' r] eqn:E; simpl; intros H; exists a.
    rewrite E; auto.
  - discriminate.
Qed.

Lemma iobind_log {A B : Type} (c : io A) (k : A -> io B) (a : A) :
  snd c = Ok a -> fst (iobind c k) = fst c ++ fst (k a).
Proof.
  destruct c as [log r]; simpl; intros ->.
  destruct (k a); reflexivity.
Qed.

Lemma iobind_raise {A B : Type} (c : io A) (k : A -> io B) (e : exn) :
  snd c = Raise e -> iobind c k = (fst c, Raise e).
Proof. destruct c as [log r]; simpl; intros ->; reflexivity. Qed.

Lemma method_is_not_stft (method : string) :
  str_in method ["cwt"%string; "wavelet"%string] = true ->
  str_in method ["stft"%string] = false.
Proof.
  unfold str_in; simpl.
  destruct (String.eqb_spec method "cwt"); [subst; reflexivity |].
  destruct (String.eqb_spec method "wavelet"); [subst; reflexivity |].
  discriminate.
Qed.

(** Case analysis on the outcome of every plotting call of the goal. *)
Ltac plot_outcomes :=
  repeat match goal with
         | |- context [plot ?title ?x ?y ?d] =>
             destruct (plot title x y d) as [[] | ?]; simpl
         end.

(** ** COLA validation in the STFT path *)

(** C8.  When the supplied overlap fails the COLA test for the Hann window
    at the computed segment length, the STFT path raises the COLA error
    right after the test: the spectrogram is never called and nothing is
    returned.  When no overlap is supplied, no COLA test is made. *)
Theorem cola_violation_aborts {T : Transforms}
        (signal : list Q) (sampling_rate : Z) (min_frequency : Q)
        (max_frequency : bound) (method : string) (window : option Q)
        (nfreqbin : option Z) (overlap : Z) (show : bool) (w : list Q) :
  let nperseg := segment_length sampling_rate (sanitize_min min_frequency) window in
  str_in (lower method) ["stft"%string] = true ->
  hann nperseg = Ok w ->
  check_COLA w nperseg overlap = Ok false ->
  signal_timefrequency signal sampling_rate min_frequency max_frequency
                       method window nfreqbin (Some overlap) show
  = ([CallHann nperseg; CallCheckCOLA nperseg overlap],
     Raise (ValueError cola_msg))
  /\
  forall n o,
    ~ In (CallCheckCOLA n o)
         (fst (signal_timefrequency signal sampling_rate min_frequency
                                    max_frequency method window nfreqbin
                                    None show)).
Proof.
  intros nperseg Hm Hw Hc; split.
  - unfold signal_timefrequency; rewrite Hm.
    fold nperseg; unfold short_term_ft.
    rewrite Hw; simpl; rewrite Hc; reflexivity.
  - intros n o; unfold signal_timefrequency; rewrite Hm.
    fold nperseg; unfold short_term_ft; simpl.
    destruct (spectrogram _ _ _ _) as [[[f t] m] | e]; simpl.
    + destruct show; simpl; plot_outcomes; intros H;
        repeat (destruct H as [H | H]; [discriminate |]); exact H.
    + intros [H | []]; discriminate.
Qed.

Lemma cola_violation_aborts_witness :
  let T := Reference.transforms in
  let signal := [1; 2; 3; 4; 5; 6; 7; 8]%Q in
  signal_timefrequency (T := T) signal 100 (4 # 100) Infinity "STFT"
                       (Some (5 # 100)%Q) None (Some 1) true
  = ([CallHann 5; CallCheckCOLA 5 1], Raise (ValueError cola_msg)).
Proof.
  intros T signal.
  apply (cola_violation_aborts (T := T) signal 100 (4 # 100) Infinity "STFT"
           (Some (5 # 100)%Q) None 1 true
           [0; 1 # 2; 1; 1 # 2; 0]%Q eq_refl eq_refl eq_refl).
Defined.

(** ** The frequency axis of the wavelet path *)

Lemma length_set_last (l : list Q) (v : Q) :
  length (NumPy.set_last l v) = length l.
Proof.
  induction l as [| x [| y l'] IH]; simpl in *; auto.
Qed.

Lemma linspace_length (start stop : Q) (num : Z) (l : list Q) :
  NumPy.linspace start stop num = Ok l -> Z.of_nat (length l) = num.
Proof.
  unfold NumPy.linspace.
  destruct (Z.ltb_spec num 0) as [Hneg | Hnum]; [discriminate |].
  intros E; inversion E; subst; clear E.
  destruct (1 <? num); rewrite ?length_set_last, length_map, length_range; lia.
Qed.

Lemma continuous_wt_frequency {T : Transforms}
      (signal : list Q) (sampling_rate : Z) (min_frequency max_frequency : Q)
      (nfreqbin : option Z) (show : bool) (f t : list Q) (m : matrix) :
  snd (continuous_wt signal sampling_rate min_frequency max_frequency
                     nfreqbin show) = Ok (f, t, m) ->
  NumPy.linspace min_frequency max_frequency
                 (match nfreqbin with None => sampling_rate / 2 | Some n => n end)
  = Ok f.
Proof.
  unfold continuous_wt; intros H.
  apply iobind_ok in H as (freq & Hf & H); simpl in Hf.
  apply iobind_ok in H as (cwtm & _ & H).
  apply iobind_ok in H as (u & _ & H).
  simpl in H; inversion H; subst; assumption.
Qed.

(** C10.  On the "cwt" / "wavelet" path the dispatcher calls the wavelet
    wrapper without [nfreqbin]: the caller's value has no influence, the
    transform is invoked on sampling_rate // 2 frequencies, and a returned
    frequency axis has sampling_rate // 2 points. *)
Theorem cwt_ignores_nfreqbin {T : Transforms}
        (signal : list Q) (sampling_rate : Z) (min_frequency : Q)
        (max_frequency : bound) (method : string) (window : option Q)
        (nfreqbin : option Z) (overlap : option Z) (show : bool) :
  str_in (lower method) ["cwt"%string; "wavelet"%string] = true ->
  let run := signal_timefrequency signal sampling_rate min_frequency
                                  max_frequency method window in
  run nfreqbin overlap show
  = continuous_wt signal sampling_rate (sanitize_min min_frequency)
                  (sanitize_max sampling_rate max_frequency) None show /\
  (forall nfreqbin', run nfreqbin' overlap show = run nfreqbin overlap show) /\
  (forall f t m,
      snd (run nfreqbin overlap show) = Ok (f, t, m) ->
      Z.of_nat (length f) = sampling_rate / 2) /\
  (0 <= sampling_rate / 2 ->
   exists log,
     fst (run nfreqbin overlap show)
     = CallCWT sampling_rate (Z.to_nat (sampling_rate / 2)) :: log).
Proof.
  intros Hm run.
  assert (E : forall nb, run nb overlap show
                         = continuous_wt signal sampling_rate
                                         (sanitize_min min_frequency)
                                         (sanitize_max sampling_rate max_frequency)
                                         None show).
  { intros nb; unfold run, signal_timefrequency.
    rewrite (method_is_not_stft _ Hm), Hm; reflexivity. }
  split; [apply E |].
  split; [intros nb; rewrite !E; reflexivity |].
  split.
  - intros f t m H; rewrite E in H.
    apply continuous_wt_frequency in H.
    apply linspace_length in H; assumption.
  - intros Hpos; rewrite E; unfold continuous_wt.
    destruct (NumPy.linspace _ _ (sampling_rate / 2)) as [freq | e] eqn:L.
    + pose proof (linspace_length _ _ _ _ L) as Hlen.
      replace (Z.to_nat (sampling_rate / 2)) with (length freq) by lia.
      simpl.
      destruct (cwt signal sampling_rate freq); simpl;
        [destruct show; simpl; plot_outcomes |]; eauto.
    + unfold NumPy.linspace in L.
      destruct (Z.ltb_spec (sampling_rate / 2) 0); [lia | discriminate].
Qed.

Lemma cwt_ignores_nfreqbin_witness :
  let T := Reference.transforms in
  let signal := [1; 2; 3; 4]%Q in
  str_in (lower "CWT") ["cwt"%string; "wavelet"%string] = true /\
  exists f t m,
    snd (signal_timefrequency (T := T) signal 100 (4 # 100) Infinity
                              "CWT" None (Some 7) None false)
    = Ok (f, t, m) /\
    Z.of_nat (length f) = 100 / 2.
Proof.
  intros T signal; split; [reflexivity |].
  eexists; eexists; eexists; split; [vm_compute; reflexivity |].
  eapply (cwt_ignores_nfreqbin (T := T) signal 100 (4 # 100) Infinity
                               "CWT" None (Some 7) None false eq_refl).
  vm_compute; reflexivity.
Defined.

(** ** Segment length of the STFT path *)

Lemma segment_length_explicit (sampling_rate : Z) (min_frequency w : Q) :
  segment_length sampling_rate min_frequency (Some w)
  = Py.int_of (w * inject_Z sampling_rate).
Proof. reflexivity. Qed.

Lemma segment_length_default (sampling_rate : Z) (min_frequency : Q) :
  segment_length sampling_rate min_frequency None
  = Py.int_of (2 / min_frequency * inject_Z sampling_rate).
Proof. reflexivity. Qed.

(** The default segment never holds more than two periods of the slowest
    frequency. *)
Lemma default_segment_at_most_two_cycles (sampling_rate : Z) (min_frequency : Q) :
  0 < sampling_rate -> (0 < min_frequency)%Q ->
  (cycles_in_segment (segment_length sampling_rate min_frequency None)
                     sampling_rate min_frequency <= 2)%Q.
Proof.
  intros Hfs Hf.
  assert (Hq : (0 < inject_Z sampling_rate)%Q)
    by (unfold Qlt; simpl; lia).
  unfold cycles_in_segment, segment_length, Py.int_of.
  set (x := (2 / min_frequency * inject_Z sampling_rate)%Q).
  assert (Hx : (0 <= x)%Q).
  { unfold x; apply Qmult_le_0_compat; [| apply Qlt_le_weak; assumption].
    apply Qlt_le_weak; unfold Qdiv; apply Qmult_lt_0_compat;
      [reflexivity | apply Qinv_lt_0_compat; assumption]. }
  apply Qle_bool_iff in Hx; rewrite Hx.
  pose proof (Qfloor_le x) as Hfl.
  assert (Hk : (0 <= / inject_Z sampling_rate * min_frequency)%Q).
  { apply Qlt_le_weak, Qmult_lt_0_compat;
      [apply Qinv_lt_0_compat |]; assumption. }
  apply (Qle_trans _ (x / inject_Z sampling_rate * min_frequency)%Q).
  - unfold Qdiv; rewrite <- !Qmult_assoc.
    apply Qmult_le_compat_r; assumption.
  - assert (Hq' : ~ (inject_Z sampling_rate == 0)%Q)
      by (intros E; rewrite E in Hq; discriminate).
    assert (Hf' : ~ (min_frequency == 0)%Q)
      by (intros E; rewrite E in Hf; discriminate).
    unfold x; apply Qle_lteq; right; field; split; assumption.
Qed.

(** C4.  With the defaults (100 Hz, slowest frequency 0.04 Hz, no window)
    the segment has 5000 samples, which is 2 / 0.04 seconds and two periods
    of the slowest frequency, not five; an explicit window of 3 seconds
    gives 3 * 100 samples. *)
Theorem default_segment_spans_two_cycles :
  segment_length 100 (sanitize_min (4 # 100)) None = 5000 /\
  (inject_Z 5000 / inject_Z 100 == 2 / (4 # 100))%Q /\
  (cycles_in_segment 5000 100 (4 # 100) == 2)%Q /\
  ~ (5 <= cycles_in_segment 5000 100 (4 # 100))%Q /\
  segment_length 100 (sanitize_min (4 # 100)) (Some 3%Q) = 300.
Proof.
  repeat split; try reflexivity.
  intros H; vm_compute in H; apply H; reflexivity.
Qed.

(** ** Frequency axes under the default bounds *)

Lemma short_term_ft_frequency {T : Transforms}
      (signal : list Q) (sampling_rate : Z) (min_frequency max_frequency : Q)
      (overlap : option Z) (nperseg : Z) (show : bool)
      (f t : list Q) (m : matrix) :
  snd (short_term_ft signal sampling_rate min_frequency max_frequency
                     overlap nperseg show) = Ok (f, t, m) ->
  spectrogram signal sampling_rate nperseg overlap = Ok (f, t, m).
Proof.
  unfold short_term_ft; intros H.
  apply iobind_ok in H as (u & _ & H).
  apply iobind_ok in H as ([[f' t'] m'] & Hs & H); simpl in Hs.
  apply iobind_ok in H as (u' & _ & H).
  simpl in H; inversion H; subst; assumption.
Qed.







(** * Further properties of the code *)

(** ** Default windows: safety and completion of the kernel *)

(** X1.  With the default window lengths, every array access of the column
    of every sampled instant is in range, for every signal length, as soon
    as the matrix has more rows than the mid-point of the frequency
    window. *)
Theorem default_windows_boundary_safety (N nfreqbin t : Z) (a : access) :
  0 <= t < N ->
  midpt (default_freq_length N) < nfreqbin ->
  In a (Trace.column N (midpt (default_time_length N))
                     (midpt (default_freq_length N)) nfreqbin t) ->
  match a with
  | SignalAt i => 0 <= i < N
  | TimeWindowAt i => 0 <= i < default_time_length N
  | FreqWindowAt i => 0 <= i < default_freq_length N
  | PwvdRow r => 0 <= r < nfreqbin
  end.
Proof.
  intros Ht Hn Ha.
  pose proof (default_column_in_range N nfreqbin t Ht Hn) as Hok.
  unfold Trace.column_ok in Hok; rewrite forallb_forall in Hok.
  specialize (Hok a Ha).
  destruct a; simpl in Hok; apply in_range_true in Hok; exact Hok.
Qed.

Lemma default_windows_boundary_safety_witness :
  0 <= 49 < 50 /\ midpt (default_freq_length 50) < 300 /\
  In (SignalAt 49) (Trace.column 50 (midpt (default_time_length 50))
                                 (midpt (default_freq_length 50)) 300 49) /\
  0 <= 49 < 50.
Proof.
  assert (Hin : In (SignalAt 49)
                   (Trace.column 50 (midpt (default_time_length 50))
                                 (midpt (default_freq_length 50)) 300 49)).
  { vm_compute; tauto. }
  split; [lia |]; split; [reflexivity |]; split; [exact Hin |].
  apply (default_windows_boundary_safety 50 300 49 (SignalAt 49));
    [lia | reflexivity | exact Hin].
Defined.

(** X2.  With a frequency window of the default length the Nyquist block
    (lines 302-317) is dead code: its guard is false at every sampled
    instant and the column is left as it is. *)
Theorem nyquist_block_dead_by_default
        (signal : list complex) (time_window freq_window : list Q)
        (N t : Z) (col : list complex) :
  Z.of_nat (length freq_window) = default_freq_length N ->
  0 <= t < N ->
  Lag.nyquist_guard N (midpt (default_freq_length N)) t = false /\
  Kernel.nyquist signal time_window freq_window N t col = Ok col.
Proof.
  intros HF Ht.
  pose proof (nyquist_guard_default N t Ht) as G.
  split; [exact G |].
  unfold Kernel.nyquist; rewrite HF, G; reflexivity.
Qed.

Lemma nyquist_block_dead_by_default_witness :
  Kernel.nyquist [Cx 1 0; Cx 0 1; Cx 1 1; Cx 2 0; Cx 0 2] [1%Q] [1%Q] 5 3
                 [czero; czero; czero]
  = Ok [czero; czero; czero].
Proof.
  apply (nyquist_block_dead_by_default
           [Cx 1 0; Cx 0 1; Cx 1 1; Cx 2 0; Cx 0 2] [1%Q] [1%Q] 5 3
           [czero; czero; czero] eq_refl);
    lia.
Defined.

Lemma mapM_ok_forall {A B : Type} (f : A -> result B) (P : B -> Prop)
      (l : list A) (r : list B) :
  mapM f l = Ok r -> (forall x y, In x l -> f x = Ok y -> P y) -> Forall P r.
Proof.
  revert r; induction l as [| a xs IH]; simpl; intros r H HP.
  - inversion H; constructor.
  - apply bind_ok in H as (b & Hb & H).
    apply bind_ok in H as (ys & Hys & H).
    inversion H; subst; constructor; [eapply HP; eauto |].
    apply IH; [assumption |]; intros x y Hx; apply HP; auto.
Qed.

Lemma arange_step_length (N step : Z) (ts : list Z) :
  0 < step -> 0 <= N ->
  Py.arange_step N step = Ok ts ->
  Z.of_nat (length ts) = (N + step - 1) / step.
Proof.
  intros Hs HN; unfold Py.arange_step.
  destruct (Z.eqb_spec step 0); [lia |].
  destruct (Z.ltb_spec step 0); [lia |].
  destruct (Z.leb_spec N 0) as [Hle | Hgt]; simpl;
    intros E; inversion E; subst; simpl.
  - assert (N = 0) by lia; subst N.
    symmetry; apply Z.div_small; lia.
  - rewrite length_map, length_seq.
    assert (0 <= (N + step - 1) / step) by (apply Z.div_pos; lia).
    lia.
Qed.

(** X3.  The kernel before the frequency projection has one column per
    entry of [time_array], that is ceil(N / segment_step) columns, and
    every column has [nfreqbin] rows. *)
Theorem kernel_shape
        (signal : list complex) (time_window freq_window : list Q)
        (N nfreqbin segment_step : Z)
        (time_array : list Z) (cols : list (list complex)) :
  0 < segment_step -> 0 <= N ->
  Py.arange_step N segment_step = Ok time_array ->
  Kernel.kernel signal time_window freq_window N nfreqbin time_array = Ok cols ->
  Z.of_nat (length cols) = (N + segment_step - 1) / segment_step /\
  length cols = length time_array /\
  Forall (fun col => length col = Z.to_nat nfreqbin) cols.
Proof.
  intros Hs HN Hts Hk.
  pose proof (mapM_ok_length _ _ _ Hk) as Hlen.
  split; [rewrite Hlen; apply arange_step_length; assumption |].
  split; [exact Hlen |].
  eapply mapM_ok_forall; [exact Hk |].
  intros t col _ Hcol; cbv beta.
  apply column_accesses in Hcol as [L _]; exact L.
Qed.

Lemma kernel_shape_witness :
  exists cols,
    Kernel.kernel [Cx 1 0; Cx 0 1; Cx 1 1; Cx 2 0; Cx 0 2] [1%Q] [1%Q] 5 4
                  [0; 2; 4] = Ok cols /\
    Z.of_nat (length cols) = (5 + 2 - 1) / 2.
Proof.
  eexists; split; [vm_compute; reflexivity |].
  apply (kernel_shape [Cx 1 0; Cx 0 1; Cx 1 1; Cx 2 0; Cx 0 2] [1%Q] [1%Q]
                      5 4 2 [0; 2; 4] _ ltac:(lia) ltac:(lia) eq_refl eq_refl).
Defined.

(** X4.  [smooth_pseudo_wvd] with default windows returns a result (no
    exception) whenever the sampling rate and the step are non-zero, the
    library routines succeed and deliver arrays of the requested sizes, and
    the number of rows exceeds the mid-point of the frequency window; the
    result has one column per sampled instant. *)
Theorem smooth_pseudo_wvd_returns {P : Numerics}
        (signal : list Q) (sampling_rate segment_step : Z) (nfreqbin : option Z)
        (analytic : list complex) (freq_window time_window : list Q) :
  let N := Z.of_nat (length signal) in
  let rows := match nfreqbin with None => 300 | Some n => n end in
  sampling_rate <> 0 ->
  segment_step <> 0 ->
  analytic_signal signal = Ok analytic ->
  N <= Z.of_nat (length analytic) ->
  hamming (default_freq_length N) = Ok freq_window ->
  Z.of_nat (length freq_window) = default_freq_length N ->
  hamming (default_time_length N) = Ok time_window ->
  Z.of_nat (length time_window) = default_time_length N ->
  midpt (default_freq_length N) < rows ->
  (forall col, col <> [] -> exists X, fft col = Ok X) ->
  exists frequency_array time_array pwvd,
    smooth_pseudo_wvd signal sampling_rate Py.None_ Py.None_ segment_step
                      nfreqbin "hamming"
    = Ok (frequency_array, time_array, pwvd) /\
    length pwvd = length time_array /\
    length frequency_array = Z.to_nat rows.
Proof.
  intros N rows Hr Hs Han Hlen Hfw HLf Htw HLt Hrows Hfft.
  assert (Hmf : 0 <= midpt (default_freq_length N)).
  { pose proof (default_length_bounds N 4 ltac:(lia) ltac:(lia)).
    unfold default_freq_length, midpt; apply Z.div_pos; lia. }
  assert (Hts : exists ts, Py.arange_step N segment_step = Ok ts).
  { unfold Py.arange_step.
    destruct (Z.eqb_spec segment_step 0); [contradiction |].
    destruct (_ || _); eauto. }
  destruct Hts as [ts Hts].
  destruct (default_kernel_total analytic time_window freq_window N rows
              segment_step ts Hlen HLt HLf Hrows Hts) as [cols Hk].
  assert (Hshape : Forall (fun col => length col = Z.to_nat rows) cols).
  { eapply mapM_ok_forall; [exact Hk |].
    intros t col _ Hcol; cbv beta.
    apply column_accesses in Hcol as [L _]; exact L. }
  assert (Hp : exists p, project cols = Ok p).
  { unfold project; apply mapM_total.
    eapply Forall_impl; [| exact Hshape].
    intros col Hcol; cbv beta in *.
    destruct (Hfft col) as [X HX].
    - destruct col; [simpl in Hcol; lia | discriminate].
    - rewrite HX; simpl; eauto. }
  destruct Hp as [p Hp].
  exists (frequency_axis rows N), ts, p.
  split; [| split].
  - unfold smooth_pseudo_wvd, py_inverse.
    destruct (Z.eqb_spec sampling_rate 0); [contradiction |]; simpl.
    rewrite Han; simpl.
    unfold smoothing_windows; simpl.
    fold N; fold (default_freq_length N); fold (default_time_length N).
    rewrite Hfw; simpl; rewrite Htw; simpl.
    rewrite Hts; simpl.
    fold rows.
    destruct (Z.ltb_spec rows 0); [lia |]; simpl.
    rewrite Hk; simpl; rewrite Hp; reflexivity.
  - apply mapM_ok_length in Hp; apply mapM_ok_length in Hk; congruence.
  - unfold frequency_axis; rewrite length_map, length_range; reflexivity.
Qed.

Lemma smooth_pseudo_wvd_returns_witness :
  let signal := [1; 2; 3; 4; 5; 6; 7; 8; 9; 10;
                 9; 8; 7; 6; 5; 4; 3; 2; 1; 0]%Q in
  exists frequency_array time_array pwvd,
    smooth_pseudo_wvd (P := Reference.numerics) signal 100 Py.None_ Py.None_ 4
                      (Some 6) "hamming"
    = Ok (frequency_array, time_array, pwvd) /\
    length pwvd = length time_array /\
    length frequency_array = Z.to_nat 6.
Proof.
  intros signal.
  eapply (smooth_pseudo_wvd_returns (P := Reference.numerics) signal 100 4
            (Some 6) _ _ _ ltac:(lia) ltac:(lia) eq_refl ltac:(simpl; lia)
            eq_refl eq_refl eq_refl eq_refl eq_refl).
  intros [| x col] H; [congruence | eexists; reflexivity].
Defined.

(** ** Explicit window lengths and window methods *)

(** X5.  What an explicit [freq_length] does (Hamming windows, default
    time window): a scalar raises [TypeError]; an array with an even number
    of elements raises the "must be odd" [ValueError]; a one-element array
    is accepted and its element becomes the window length; an array with an
    odd number of three or more elements passes the parity test and then
    raises [TypeError] at [int(freq_length)]. *)
Theorem explicit_freq_length_outcomes {P : Numerics} (N : Z) :
  (forall z,
      smoothing_windows N (Py.Int z) Py.None_ "hamming" = Raise TypeError) /\
  (forall l,
      Nat.even (length l) = true ->
      smoothing_windows N (Py.Array l) Py.None_ "hamming"
      = Raise (ValueError freq_odd_msg)) /\
  (forall z,
      smoothing_windows N (Py.Array [z]) Py.None_ "hamming"
      = (freq_window <- hamming z ;;
         time_window <- hamming (default_time_length N) ;;
         Ok (freq_window, time_window))) /\
  (forall l,
      Nat.even (length l) = false -> (3 <= length l)%nat ->
      smoothing_windows N (Py.Array l) Py.None_ "hamming" = Raise TypeError).
Proof.
  assert (Hpar : forall l : list Z,
             (Z.of_nat (length l) mod 2 =? 0) = Nat.even (length l)).
  { intros l; rewrite <- Zeven_mod.
    destruct (Nat.even (length l)) eqn:E.
    - apply Nat.even_spec in E as [k Hk]; rewrite Hk.
      rewrite Nat2Z.inj_mul; change (Z.of_nat 2) with 2.
      rewrite Z.even_mul; reflexivity.
    - rewrite <- Nat.negb_odd in E; apply negb_false_iff in E.
      apply Nat.odd_spec in E as [k Hk]; rewrite Hk.
      rewrite Nat2Z.inj_add, Nat2Z.inj_mul; simpl Z.of_nat.
      rewrite Z.even_add, Z.even_mul; reflexivity. }
  repeat split.
  - intros l E; unfold smoothing_windows, check_length; simpl.
    rewrite Hpar, E; reflexivity.
  - intros l E Hlen; unfold smoothing_windows, check_length; simpl.
    rewrite Hpar, E; simpl.
    destruct l as [| a [| b l']]; simpl in *; try lia; reflexivity.
Qed.

Lemma explicit_freq_length_outcomes_witness :
  Nat.even (length [3; 4]) = true /\
  smoothing_windows (P := Reference.numerics) 50 (Py.Array [3; 4]) Py.None_
                    "hamming"
  = Raise (ValueError freq_odd_msg).
Proof.
  split; [reflexivity |].
  apply (explicit_freq_length_outcomes (P := Reference.numerics) 50).
  reflexivity.
Defined.

(** ** The dispatcher *)

Lemma str_in_singleton (s t : string) : str_in s [t] = String.eqb s t.
Proof. unfold str_in; simpl; apply orb_false_r. Qed.

Lemma dispatch_cases {T : Transforms}
      (signal : list Q) (sampling_rate : Z) (min_frequency : Q)
      (max_frequency : bound) (method : string) (window : option Q)
      (nfreqbin overlap : option Z) (show : bool) :
  lower method = "cwt"%string \/ lower method = "wavelet"%string ->
  signal_timefrequency signal sampling_rate min_frequency max_frequency
                       method window nfreqbin overlap show
  = continuous_wt signal sampling_rate (sanitize_min min_frequency)
                  (sanitize_max sampling_rate max_frequency) None show.
Proof.
  unfold signal_timefrequency, str_in; simpl.
  intros [-> | ->]; reflexivity.
Qed.

Lemma dispatch_stft {T : Transforms}
      (signal : list Q) (sampling_rate : Z) (min_frequency : Q)
      (max_frequency : bound) (method : string) (window : option Q)
      (nfreqbin overlap : option Z) (show : bool) :
  lower method = "stft"%string ->
  signal_timefrequency signal sampling_rate min_frequency max_frequency
                       method window nfreqbin overlap show
  = short_term_ft signal sampling_rate (sanitize_min min_frequency)
                  (sanitize_max sampling_rate max_frequency) overlap
                  (segment_length sampling_rate (sanitize_min min_frequency)
                                  window)
                  show.
Proof.
  unfold signal_timefrequency; rewrite str_in_singleton.
  intros ->; reflexivity.
Qed.

(** X8.  On the STFT path without plotting the outcome of the call is
    exactly the outcome of the spectrogram routine, value or exception
    (with [overlap] handed on as [noverlap] once the COLA test passes), and
    a triple returned with or without plotting is always the spectrogram's:
    the frequency bounds never crop it.  With plotting, an exception raised
    while drawing either figure replaces the spectrogram's triple. *)
Theorem stft_returns_spectrogram_outcome {T : Transforms}
        (signal : list Q) (sampling_rate : Z) (min_frequency : Q)
        (max_frequency : bound) (method : string) (window : option Q)
        (nfreqbin : option Z) :
  lower method = "stft"%string ->
  let lo := sanitize_min min_frequency in
  let hi := sanitize_max sampling_rate max_frequency in
  let nperseg := segment_length sampling_rate lo window in
  let run := signal_timefrequency signal sampling_rate min_frequency
                                  max_frequency method window nfreqbin in
  snd (run None false) = spectrogram signal sampling_rate nperseg None /\
  (forall ov w,
      hann nperseg = Ok w ->
      check_COLA w nperseg ov = Ok true ->
      snd (run (Some ov) false)
      = spectrogram signal sampling_rate nperseg (Some ov)) /\
  (forall overlap show r,
      snd (run overlap show) = Ok r ->
      spectrogram signal sampling_rate nperseg overlap = Ok r) /\
  (forall frequency time stft e,
      spectrogram signal sampling_rate nperseg None
      = Ok (frequency, time, stft) ->
      let f := Band.f frequency lo hi in
      let z := Band.z frequency stft lo hi in
      plot "STFT Magnitude" time f z = Raise e \/
      (plot "STFT Magnitude" time f z = Ok tt /\
       plot "Power Spectrum Density (PSD)" time f z = Raise e) ->
      snd (run None true) = Raise e).
Proof.
  intros Hm lo hi nperseg run.
  assert (E : forall overlap show,
             run overlap show
             = short_term_ft signal sampling_rate lo hi overlap nperseg show).
  { intros overlap show; apply dispatch_stft; exact Hm. }
  split; [| split; [| split]].
  - rewrite E; unfold short_term_ft; simpl.
    destruct (spectrogram signal sampling_rate nperseg None)
      as [[[f t] m] | e]; reflexivity.
  - intros ov w Hw Hc; rewrite E; unfold short_term_ft.
    rewrite Hw; simpl; rewrite Hc; simpl.
    destruct (spectrogram signal sampling_rate nperseg (Some ov))
      as [[[f t] m] | e]; reflexivity.
  - intros overlap show [[f t] m] H; rewrite E in H.
    apply short_term_ft_frequency in H; exact H.
  - intros frequency time stft e Hs f z Hp.
    rewrite E; unfold short_term_ft; simpl; rewrite Hs; simpl.
    fold f z.
    destruct Hp as [-> | [-> ->]]; reflexivity.
Qed.

Lemma stft_returns_spectrogram_outcome_witness :
  lower "STFT" = "stft"%string /\
  spectrogram (Transforms := Reference.headless)
              [1; 2; 3; 4; 5; 6; 7; 8]%Q 100 5 None
  = Ok ([0 # 5; 100 # 5; 200 # 5]%Q, [], []) /\
  snd (signal_timefrequency (T := Reference.headless)
                            [1; 2; 3; 4; 5; 6; 7; 8]%Q 100 (4 # 100) Infinity
                            "STFT" (Some (5 # 100)%Q) None None true)
  = Raise (ValueError "no display").
Proof.
  split; [reflexivity |]; split; [reflexivity |].
  apply (stft_returns_spectrogram_outcome (T := Reference.headless)
           [1; 2; 3; 4; 5; 6; 7; 8]%Q 100 (4 # 100) Infinity "STFT"
           (Some (5 # 100)%Q) None eq_refl)
    with (frequency := [0 # 5; 100 # 5; 200 # 5]%Q) (time := []) (stft := []).
  - reflexivity.
  - left; reflexivity.
Defined.

(** Close the four parts of a comparison of the two settings of [show]
    once every library outcome is fixed. *)
Ltac show_cases :=
  split;
  [ let H := fresh in
    intros ? H; simpl in H;
    repeat (destruct H as [H | H]; [discriminate |]); exact H
  | split;
    [ let H := fresh in
      intros ? H; first [exact H | discriminate H]
    | split;
      [ let H := fresh in
        intros ? H; first [discriminate H | reflexivity]
      | first [ exists []; split; [reflexivity | constructor]
              | eexists; split; [reflexivity |];
                repeat constructor; eexists; reflexivity ] ] ] ].

(** X9.  With [show] false no plotting call is made.  A value returned with
    [show] true is the value returned with [show] false; a call that fails
    with [show] false fails in the same way, after the same library calls,
    with [show] true; and [show] true only appends plotting calls to the
    library calls made.  (The converse does not hold: an exception raised
    while drawing replaces the value.) *)
Theorem show_only_adds_plots {T : Transforms}
        (signal : list Q) (sampling_rate : Z) (min_frequency : Q)
        (max_frequency : bound) (method : string) (window : option Q)
        (nfreqbin overlap : option Z) :
  let run := signal_timefrequency signal sampling_rate min_frequency
                                  max_frequency method window nfreqbin
                                  overlap in
  (forall title, ~ In (CallPlot title) (fst (run false))) /\
  (forall r, snd (run true) = Ok r -> snd (run false) = Ok r) /\
  (forall e, snd (run false) = Raise e -> run true = run false) /\
  exists plots,
    fst (run true) = fst (run false) ++ plots /\
    Forall (fun ev => exists title, ev = CallPlot title) plots.
Proof.
  intros run; unfold run, signal_timefrequency.
  destruct (str_in (lower method) ["stft"%string]);
    [| destruct (str_in (lower method) _)].
  - unfold short_term_ft.
    destruct overlap as [ov |]; simpl;
      [destruct (hann _) as [w | e]; simpl;
       [destruct (check_COLA _ _ _) as [[|] | e]; simpl |] |];
      try (destruct (spectrogram _ _ _ _) as [[[f t] m] | e]; simpl);
      plot_outcomes; show_cases.
  - unfold continuous_wt.
    destruct (NumPy.linspace _ _ _) as [freq | e]; simpl;
      [destruct (cwt _ _ _) as [m | e]; simpl |];
      plot_outcomes; show_cases.
  - simpl; show_cases.
Qed.

Lemma show_only_adds_plots_witness :
  let run := signal_timefrequency (T := Reference.transforms)
                                  [1; 2; 3; 4]%Q 100 (4 # 100) Infinity
                                  "cwt" None None None in
  exists r, snd (run true) = Ok r /\ snd (run false) = Ok r.
Proof.
  intros run; eexists.
  assert (E : snd (run true) = Ok _) by (vm_compute; reflexivity).
  split; [exact E |].
  apply (show_only_adds_plots (T := Reference.transforms)
           [1; 2; 3; 4]%Q 100 (4 # 100) Infinity "cwt" None None None).
  exact E.
Defined.

(** ** Rows of a kernel column *)

Lemma nth_error_update_eq {A : Type} (a : list A) (n : nat) (v : A) :
  (n < length a)%nat -> nth_error (Py.update a n v) n = Some v.
Proof.
  revert n; induction a as [| x xs IH]; intros [| n] H; simpl in *;
    try lia; [reflexivity | apply IH; lia].
Qed.

Lemma nth_error_update_neq {A : Type} (a : list A) (n k : nat) (v : A) :
  n <> k -> nth_error (Py.update a n v) k = nth_error a k.
Proof.
  revert n k; induction a as [| x xs IH]; intros [| n] [| k] H; simpl;
    try reflexivity; try congruence.
  apply IH; congruence.
Qed.

Lemma set_row {A : Type} (a a' : list A) (i : Z) (v : A) :
  Py.set a i v = Ok a' -> 0 <= i ->
  i < Z.of_nat (length a) /\
  length a' = length a /\
  nth_error a' (Z.to_nat i) = Some v /\
  forall k, k <> Z.to_nat i -> nth_error a' k = nth_error a k.
Proof.
  intros H Hi.
  pose proof (set_ok_inv _ _ _ _ H) as [Hok Hlen].
  apply index_ok_true in Hok.
  unfold Py.set in H.
  destruct (Py.index_ok _ i); [| discriminate].
  unfold Py.norm_index in H.
  destruct (Z.ltb_spec i 0); [lia |].
  inversion H; subst; clear H.
  repeat split; try lia; try assumption.
  - apply nth_error_update_eq; lia.
  - intros k Hk; apply nth_error_update_neq; congruence.
Qed.

Open Scope Q_scope.


Close Scope Q_scope.

Section LagRows.
Variables (signal : list complex) (time_window freq_window : list Q).
Variables (N nfreqbin t : Z).

Let mt := midpt (Z.of_nat (length time_window)).
Let mf := midpt (Z.of_nat (length freq_window)).

(** One loop iteration writes rows [m + 1] and [nfreqbin - m - 1] and
    nothing else. *)
Lemma lag_step_rows (col col' : list complex) (m : Z) :
  0 <= m ->
  length col = Z.to_nat nfreqbin ->
  Kernel.lag_step signal time_window freq_window N nfreqbin t col m = Ok col' ->
  length col' = Z.to_nat nfreqbin /\
  m + 1 < nfreqbin /\
  exists g a b w w',
    Py.take time_window (Lag.time_pts mt (Lag.tau N mt t m)) = Ok g /\
    Py.take signal (Lag.signal_pt1 t m (Lag.tau N mt t m)) = Ok a /\
    Py.take signal (Lag.signal_pt2 t m (Lag.tau N mt t m)) = Ok b /\
    Py.get freq_window (mf + m + 1) = Ok w /\
    Py.get freq_window (mf - m + 1) = Ok w' /\
    nth_error col' (Z.to_nat (nfreqbin - m - 1))
    = Some (cscale w' (Kernel.smoothed (Kernel.normalize g) b a)) /\
    (m + 1 <> nfreqbin - m - 1 ->
     nth_error col' (Z.to_nat (m + 1))
     = Some (cscale w (Kernel.smoothed (Kernel.normalize g) a b))) /\
    forall k, k <> Z.to_nat (m + 1) -> k <> Z.to_nat (nfreqbin - m - 1) ->
              nth_error col' k = nth_error col k.
Proof.
  intros Hm Hlen H; unfold Kernel.lag_step in H; fold mt mf in H.
  step_ok H as g Hg. step_ok H as a Ha. step_ok H as b Hb.
  step_ok H as w Hw. step_ok H as col1 Hcol1.
  step_ok H as b' Hb'. step_ok H as a' Ha'. step_ok H as w' Hw'.
  assert (b' = b) by congruence; assert (a' = a) by congruence; subst a' b'.
  destruct (set_row _ _ _ _ Hcol1 ltac:(lia)) as (B1 & L1 & V1 & K1).
  rewrite Hlen in B1.
  destruct (set_row _ _ _ _ H ltac:(lia)) as (B2 & L2 & V2 & K2).
  split; [congruence |]; split; [lia |].
  exists g, a, b, w, w'.
  repeat (split; [assumption |]).
  split.
  - intros Hne; rewrite K2 by lia; exact V1.
  - intros k Hk1 Hk2; rewrite K2, K1 by assumption; reflexivity.
Qed.

Lemma lag_loop_keeps_row (ms : list Z) (col col' : list complex) (k : nat) :
  length col = Z.to_nat nfreqbin ->
  Forall (fun m => 0 <= m /\ k <> Z.to_nat (m + 1) /\
                   k <> Z.to_nat (nfreqbin - m - 1)) ms ->
  Kernel.lag_loop signal time_window freq_window N nfreqbin t col ms = Ok col' ->
  length col' = Z.to_nat nfreqbin /\ nth_error col' k = nth_error col k.
Proof.
  revert col; induction ms as [| m ms IH]; intros col Hlen Hms H.
  - inversion H; subst; auto.
  - inversion Hms as [| m' ms' (Hm & Hk1 & Hk2) Hms']; subst.
    cbn [Kernel.lag_loop] in H; step_ok H as col1 H1.
    destruct (lag_step_rows col col1 m Hm Hlen H1) as (L1 & _ & R).
    destruct R as (g & a & b & w & w' & _ & _ & _ & _ & _ & _ & _ & Keep).
    destruct (IH col1 L1 Hms' H) as [L2 E2].
    split; [exact L2 |].
    rewrite E2; apply Keep; assumption.
Qed.

End LagRows.



(** X11.  Rows beyond the lag reach are never written: in a computed
    column every row strictly between [tau_max] and [nfreqbin - tau_max]
    (other than the Nyquist row) still holds the initial zero. *)
Theorem rows_beyond_lag_reach_stay_zero
        (signal : list complex) (time_window freq_window : list Q)
        (N nfreqbin t r : Z) (col : list complex) :
  0 <= N ->
  Kernel.column signal time_window freq_window N nfreqbin t = Ok col ->
  let reach :=
    Z.max 0 (Lag.tau_max N (midpt (Z.of_nat (length time_window)))
                         (midpt (Z.of_nat (length freq_window))) t) in
  reach < r < nfreqbin - reach ->
  r <> Py.round_half N ->
  nth_error col (Z.to_nat r) = Some czero.
Proof.
  intros HN H reach Hr Hny; unfold Kernel.column in H.
  step_ok H as c0 H0. step_ok H as c1 H1.
  unfold Kernel.zero_lag in H0; step_ok H0 as v Hv.
  destruct (set_row _ _ _ _ H0 ltac:(lia)) as (_ & L0 & _ & K0).
  rewrite repeat_length in L0.
  assert (Hms : Forall (fun m => 0 <= m /\ Z.to_nat r <> Z.to_nat (m + 1) /\
                                 Z.to_nat r <> Z.to_nat (nfreqbin - m - 1))
                       (Py.range (Lag.tau_max N
                          (midpt (Z.of_nat (length time_window)))
                          (midpt (Z.of_nat (length freq_window))) t))).
  { apply Forall_forall; intros m Hm; apply in_range in Hm.
    unfold reach in Hr; lia. }
  destruct (lag_loop_keeps_row _ _ _ _ _ _ _ c0 c1 (Z.to_nat r) L0 Hms H1)
    as [L1 E1].
  assert (E2 : nth_error col (Z.to_nat r) = nth_error c1 (Z.to_nat r)).
  { apply nyquist_ok_inv in H as [_ ->]; reflexivity. }
  rewrite E2, E1, K0 by (unfold reach in Hr; lia).
  apply nth_error_repeat; unfold reach in Hr; lia.
Qed.

Lemma rows_beyond_lag_reach_stay_zero_witness :
  let signal := [Cx 1 0; Cx 0 1; Cx (-1) 2; Cx 3 (-1);
                 Cx 2 2; Cx 0 (-3); Cx 1 1; Cx (-2) 0] in
  let time_window := [(2 # 25)%Q; 1%Q; (2 # 25)%Q] in
  let freq_window := [(2 # 25)%Q; (27 # 50)%Q; 1%Q; (27 # 50)%Q; (2 # 25)%Q] in
  exists col,
    Kernel.column signal time_window freq_window 8 7 3 = Ok col /\
    nth_error col (Z.to_nat 3) = Some czero.
Proof.
  intros signal time_window freq_window.
  eexists; split; [vm_compute; reflexivity |].
  apply (rows_beyond_lag_reach_stay_zero signal time_window freq_window
           8 7 3 3 _ ltac:(lia) eq_refl);
    [vm_compute; split; reflexivity | vm_compute; discriminate].
Defined.

(** ** The zero-lag average *)

Lemma combine_map_same {A B C : Type} (f : A -> B) (g : A -> C) (l : list A) :
  combine (map f l) (map g l) = map (fun u => (f u, g u)) l.
Proof. induction l; simpl; congruence. Qed.

(** X12.  Row 0 of the column of instant [t] averages the samples whose
    index is within [midpt_time] of [t - 1], clipped to the signal, and
    sample [p] is weighted by [time_window[midpt_time + (t - 1) - p]]: the
    average is centred on sample [t - 1], not on sample [t]. *)
Theorem zero_lag_window_centred (N mt t w p : Z) :
  In (w, p) (combine (Lag.time_pts mt (Lag.tau0 N mt t))
                     (Lag.signal_pts t (Lag.tau0 N mt t)))
  <-> Z.max 0 (t - 1 - mt) <= p <= Z.min (N - 1) (t - 1 + mt) /\
      w = mt + (t - 1 - p).
Proof.
  unfold Lag.time_pts, Lag.signal_pts, Lag.tau0.
  rewrite combine_map_same, in_map_iff; split.
  - intros (u & E & Hu); inversion E; subst; clear E.
    apply in_arange in Hu; lia.
  - intros [Hp ->]; exists (t - 1 - p); split; [f_equal; lia |].
    apply in_arange; lia.
Qed.

Open Scope Q_scope.



Close Scope Q_scope.


(** ** Lag zero is evaluated again by the loop *)

Lemma range_cons (n : Z) :
  1 <= n ->
  exists ms, Py.range n = 0 :: ms /\ Forall (fun m => 1 <= m < n) ms.
Proof.
  intros Hn; unfold Py.range.
  destruct (Z.to_nat n) as [| k] eqn:E; [lia |].
  simpl; eexists; split; [reflexivity |].
  apply Forall_forall; intros m Hm.
  apply in_map_iff in Hm as (j & <- & Hj); apply in_seq in Hj; lia.
Qed.

Lemma lag_zero_indices (N mt t : Z) :
  Lag.tau N mt t 0 = Lag.tau0 N mt t /\
  Lag.signal_pt1 t 0 (Lag.tau0 N mt t) = Lag.signal_pts t (Lag.tau0 N mt t) /\
  Lag.signal_pt2 t 0 (Lag.tau0 N mt t) = Lag.signal_pts t (Lag.tau0 N mt t).
Proof.
  unfold Lag.tau, Lag.tau0, Lag.signal_pt1, Lag.signal_pt2, Lag.signal_pts.
  rewrite !Z.sub_0_r; repeat split; apply map_ext; intros u; lia.
Qed.

(** X14.  The first loop iteration (m = 0) recomputes the zero-lag power:
    in a computed column whose lag reach is at least 1 and at most
    [nfreqbin - 2], rows 1 and [nfreqbin - 1] both hold the value of row 0
    multiplied by [freq_window[midpt_freq + 1]]. *)
Theorem lag_zero_duplicates_power
        (signal : list complex) (time_window freq_window : list Q)
        (N nfreqbin t : Z) (col : list complex) :
  let mt := midpt (Z.of_nat (length time_window)) in
  let mf := midpt (Z.of_nat (length freq_window)) in
  0 <= t < N ->
  1 <= Lag.tau_max N mt mf t <= nfreqbin - 2 ->
  Lag.nyquist_guard N mf t = false ->
  Kernel.column signal time_window freq_window N nfreqbin t = Ok col ->
  exists (v : complex) (w : Q),
    Py.get freq_window (mf + 1) = Ok w /\
    nth_error col 0 = Some v /\
    nth_error col 1 = Some (cscale w v) /\
    nth_error col (Z.to_nat (nfreqbin - 1)) = Some (cscale w v).
Proof.
  intros mt mf Ht Hreach Hg H.
  destruct (column_head _ _ _ _ _ _ col Ht H) as (v & Hv & Hhead).
  unfold Kernel.column in H; fold mt mf in H.
  step_ok H as c0 H0. step_ok H as c1 H1.
  unfold Kernel.nyquist in H; fold mf in H; rewrite Hg in H.
  inversion H; subst c1; clear H.
  assert (L0 : length c0 = Z.to_nat nfreqbin).
  { unfold Kernel.zero_lag in H0; step_ok H0 as v0 Hv0.
    apply set_ok_inv in H0 as [_ L]; rewrite repeat_length in L; exact L. }
  destruct (range_cons _ (proj1 Hreach)) as (ms & Ems & Hms).
  rewrite Ems in H1; cbn [Kernel.lag_loop] in H1.
  step_ok H1 as c' Hstep.
  destruct (lag_step_rows _ _ _ _ _ _ c0 c' 0 ltac:(lia) L0 Hstep)
    as (L' & _ & g & a & b & w & w' & Hg' & Ha & Hb & Hw & Hw' & V2 & V1 & _).
  fold mt in Hg', Ha, Hb; fold mf in Hw, Hw'.
  destruct (lag_zero_indices N mt t) as (Et & E1 & E2).
  rewrite Et in Hg', Ha, Hb; rewrite E1 in Ha; rewrite E2 in Hb.
  assert (b = a) by congruence; subst b.
  replace (mf - 0 + 1) with (mf + 1) in Hw' by lia.
  replace (mf + 0 + 1) with (mf + 1) in Hw by lia.
  assert (w' = w) by congruence; subst w'.
  unfold Kernel.zero_lag_value in Hv; fold mt in Hv.
  rewrite Hg' in Hv; simpl in Hv; rewrite Ha in Hv; simpl in Hv.
  inversion Hv; subst v; clear Hv.
  assert (K1 : Forall (fun m => 0 <= m /\ 1%nat <> Z.to_nat (m + 1) /\
                                1%nat <> Z.to_nat (nfreqbin - m - 1)) ms).
  { eapply Forall_impl; [| exact Hms]; intros m Hm; cbv beta in *; lia. }
  assert (K2 : Forall (fun m => 0 <= m /\
                                Z.to_nat (nfreqbin - 1) <> Z.to_nat (m + 1) /\
                                Z.to_nat (nfreqbin - 1)
                                <> Z.to_nat (nfreqbin - m - 1)) ms).
  { eapply Forall_impl; [| exact Hms]; intros m Hm; cbv beta in *; lia. }
  destruct (lag_loop_keeps_row _ _ _ _ _ _ ms c' col 1%nat L' K1 H1) as [_ R1].
  destruct (lag_loop_keeps_row _ _ _ _ _ _ ms c' col _ L' K2 H1) as [_ R2].
  exists (Kernel.smoothed (Kernel.normalize g) a a), w.
  split; [exact Hw |]; split; [exact Hhead |]; split.
  - rewrite R1; apply (V1 ltac:(lia)).
  - rewrite R2; replace (nfreqbin - 1) with (nfreqbin - 0 - 1) by lia.
    exact V2.
Qed.

Lemma lag_zero_duplicates_power_witness :
  let signal := [Cx 1 0; Cx 0 1; Cx (-1) 2; Cx 3 (-1);
                 Cx 2 2; Cx 0 (-3); Cx 1 1; Cx (-2) 0] in
  let time_window := [(2 # 25)%Q; 1%Q; (2 # 25)%Q] in
  let freq_window := [(2 # 25)%Q; (27 # 50)%Q; 1%Q; (27 # 50)%Q; (2 # 25)%Q] in
  exists col v w,
    Kernel.column signal time_window freq_window 8 7 3 = Ok col /\
    Py.get freq_window (2 + 1) = Ok w /\
    nth_error col 0 = Some v /\
    nth_error col 1 = Some (cscale w v) /\
    nth_error col (Z.to_nat (7 - 1)) = Some (cscale w v).
Proof.
  intros signal time_window freq_window.
  eexists.
  assert (E : Kernel.column signal time_window freq_window 8 7 3 = Ok _)
    by (vm_compute; reflexivity).
  destruct (lag_zero_duplicates_power signal time_window freq_window 8 7 3 _
              ltac:(lia) ltac:(vm_compute; split; discriminate) eq_refl E)
    as (v & w & R).
  exists v, w; split; [exact E | exact R].
Defined.

(** ** The plotted band of the STFT *)

Lemma filter_all {A : Type} (p : A -> bool) (l : list A) :
  Forall (fun x => p x = true) l -> filter p l = l.
Proof.
  induction 1 as [| x xs Hx _ IH]; simpl; [reflexivity |].
  rewrite Hx, IH; reflexivity.
Qed.

Lemma filter_none {A : Type} (p : A -> bool) (l : list A) :
  Forall (fun x => p x = false) l -> filter p l = [].
Proof.
  induction 1 as [| x xs Hx _ IH]; simpl; [reflexivity |].
  rewrite Hx, IH; reflexivity.
Qed.

Lemma filter_andb {A : Type} (p q : A -> bool) (l : list A) :
  filter (fun x => p x && q x) l = filter q (filter p l).
Proof.
  induction l as [| x xs IH]; simpl; [reflexivity |].
  destruct (p x); simpl; [destruct (q x) |]; rewrite IH; reflexivity.
Qed.

Lemma above_true (m x : Q) : Band.above m x = true <-> (m < x)%Q.
Proof.
  unfold Band.above; rewrite negb_true_iff, <- not_true_iff_false, Qle_bool_iff.
  split; [apply Qnot_le_lt | apply Qlt_not_le].
Qed.

Lemma below_false (M x : Q) : Band.below M x = false <-> (M <= x)%Q.
Proof.
  unfold Band.below; rewrite negb_false_iff, Qle_bool_iff; reflexivity.
Qed.

(** On an ascending axis the entries above the minimum form a suffix. *)
Lemma above_is_suffix (m : Q) (l : list Q) :
  StronglySorted Qle l ->
  filter (Band.above m) l
  = skipn (length l - length (filter (Band.above m) l)) l.
Proof.
  induction 1 as [| x xs Hs IH Hx]; [reflexivity |].
  simpl filter; destruct (Band.above m x) eqn:E.
  - rewrite (filter_all (Band.above m) xs).
    + simpl length; rewrite Nat.sub_diag; reflexivity.
    + apply above_true in E.
      eapply Forall_impl; [| exact Hx]; intros y Hy; cbv beta.
      apply above_true; eapply Qlt_le_trans; eauto.
  - pose proof (filter_length_le (Band.above m) xs) as Hle.
    simpl length.
    replace (S (length xs) - length (filter (Band.above m) xs))%nat
      with (S (length xs - length (filter (Band.above m) xs))) by lia.
    exact IH.
Qed.

(** On an ascending axis the entries below the maximum form a prefix. *)
Lemma below_is_prefix (M : Q) (l : list Q) :
  StronglySorted Qle l ->
  filter (Band.below M) l = firstn (length (filter (Band.below M) l)) l.
Proof.
  induction 1 as [| x xs Hs IH Hx]; [reflexivity |].
  simpl filter; destruct (Band.below M x) eqn:E.
  - simpl; f_equal; exact IH.
  - rewrite (filter_none (Band.below M) xs); [reflexivity |].
    apply below_false in E.
    eapply Forall_impl; [| exact Hx]; intros y Hy; cbv beta.
    apply below_false; eapply Qle_trans; eauto.
Qed.

Lemma sorted_skipn (n : nat) (l : list Q) :
  StronglySorted Qle l -> StronglySorted Qle (skipn n l).
Proof.
  intros H; revert n; induction H as [| x xs Hs IH Hx]; intros [| n]; simpl;
    try constructor; auto.
Qed.

(** X15.  On an ascending frequency axis with one STFT row per frequency,
    the frequencies and rows selected for plotting are the same window of
    indices, starting at [lower_bound]: row k of [z] is the row of
    frequency [f[k]], and [f] holds exactly the frequencies strictly
    between the two bounds. *)
Theorem plotted_band_rows {A : Type}
        (frequency : list Q) (stft : list A) (min_frequency max_frequency : Q) :
  StronglySorted Qle frequency ->
  length stft = length frequency ->
  let lb := Z.to_nat (Band.lower_bound frequency min_frequency) in
  let n := length (Band.f frequency min_frequency max_frequency) in
  Band.f frequency min_frequency max_frequency
  = firstn n (skipn lb frequency) /\
  Band.z frequency stft min_frequency max_frequency
  = firstn n (skipn lb stft) /\
  length (Band.z frequency stft min_frequency max_frequency) = n /\
  Forall (fun x => min_frequency < x /\ x < max_frequency)%Q
         (Band.f frequency min_frequency max_frequency).
Proof.
  intros Hs Hlen lb n.
  pose proof (filter_length_le (Band.above min_frequency) frequency) as Hle.
  assert (Elb : lb = (length frequency
                      - length (filter (Band.above min_frequency) frequency))%nat).
  { unfold lb, Band.lower_bound; lia. }
  assert (Ef : Band.f frequency min_frequency max_frequency
               = firstn n (skipn lb frequency)).
  { unfold n, Band.f; rewrite filter_andb.
    rewrite (above_is_suffix min_frequency frequency Hs), <- Elb.
    apply below_is_prefix, sorted_skipn, Hs. }
  assert (Hn : (lb + n <= length frequency)%nat).
  { assert (L : length (firstn n (skipn lb frequency)) = n)
      by (rewrite <- Ef; reflexivity).
    rewrite length_firstn, length_skipn in L; lia. }
  assert (Ez : Band.z frequency stft min_frequency max_frequency
               = firstn n (skipn lb stft)).
  { unfold Band.z, Band.slice; fold n.
    unfold Slice.clip; rewrite Hlen.
    set (b := Band.lower_bound frequency min_frequency).
    assert (Hb : b = Z.of_nat lb) by (unfold b, Band.lower_bound; lia).
    destruct (Z.ltb_spec b 0); [lia |].
    destruct (Z.ltb_spec (b + Z.of_nat n) 0); [lia |].
    replace (Z.to_nat (Z.max 0 (Z.min (Z.of_nat (length frequency)) b)))
      with lb by lia.
    replace (Z.to_nat
               (Z.max 0 (Z.min (Z.of_nat (length frequency)) (b + Z.of_nat n))
                - Z.max 0 (Z.min (Z.of_nat (length frequency)) b)))
      with n by lia.
    reflexivity. }
  split; [exact Ef |]; split; [exact Ez |]; split.
  - rewrite Ez, length_firstn, length_skipn; lia.
  - unfold Band.f; apply Forall_forall; intros x Hx.
    apply filter_In in Hx as [_ Hx]; apply andb_prop in Hx as [Ha Hb].
    split; [apply above_true; exact Ha |].
    unfold Band.below in Hb; rewrite negb_true_iff in Hb.
    apply Qnot_le_lt; rewrite <- Qle_bool_iff, Hb; discriminate.
Qed.

Lemma plotted_band_rows_witness :
  let frequency := [0; 25 # 2; 25; 75 # 2; 50]%Q in
  let stft := [10; 11; 12; 13; 14] in
  Band.f frequency (4 # 100) 50 = [25 # 2; 25; 75 # 2]%Q /\
  Band.z frequency stft (4 # 100) 50 = [11; 12; 13].
Proof.
  intros frequency stft.
  assert (Hs : StronglySorted Qle frequency).
  { repeat (constructor; [| repeat (constructor; [unfold Qle; simpl; lia |]);
                             constructor]).
    constructor. }
  destruct (plotted_band_rows frequency stft (4 # 100) 50 Hs eq_refl)
    as (Ef & Ez & _).
  split; [rewrite Ef | rewrite Ez]; reflexivity.
Defined.

(** ** Axes of the wavelet wrapper *)

Lemma set_last_forall (P : Q -> Prop) (l : list Q) (v : Q) :
  Forall P l -> P v -> Forall P (NumPy.set_last l v).
Proof.
  intros Hl Hv; induction Hl as [| x xs Hx Hxs IH]; simpl; [constructor |].
  destruct xs; [repeat constructor; assumption |].
  constructor; assumption.
Qed.

Open Scope Q_scope.

Lemma linspace_entry_within (start stop : Q) (num k : Z) :
  start <= stop -> (0 <= k <= num - 1)%Z ->
  let step := (stop - start) / inject_Z (num - 1) in
  start <= inject_Z k * step + start /\ inject_Z k * step + start <= stop.
Proof.
  intros Hss Hk step.
  assert (Hd : 0 <= stop - start)
    by (rewrite <- (Qplus_opp_r start); apply Qplus_le_compat;
        [assumption | apply Qle_refl]).
  assert (Hkq : 0 <= inject_Z k) by (unfold Qle; simpl; lia).
  destruct (Z.eq_dec (num - 1) 0) as [E | E].
  - assert (k = 0)%Z by lia; subst k.
    rewrite Qmult_0_l, Qplus_0_l; split; [apply Qle_refl | assumption].
  - assert (Hn : 0 < inject_Z (num - 1)) by (unfold Qlt; simpl; lia).
    assert (Hstep : 0 <= step).
    { unfold step, Qdiv; apply Qmult_le_0_compat; [assumption |].
      apply Qlt_le_weak, Qinv_lt_0_compat; assumption. }
    split.
    + rewrite <- (Qplus_0_l start) at 1.
      apply Qplus_le_compat; [| apply Qle_refl].
      apply Qmult_le_0_compat; assumption.
    + assert (Hle : inject_Z k * step <= stop - start).
      { assert (Hn' : ~ inject_Z (num - 1) == 0)
          by (intros F; rewrite F in Hn; discriminate).
        assert (Es : inject_Z k * step
                     == inject_Z k * (stop - start) / inject_Z (num - 1))
          by (unfold step; field; assumption).
        rewrite Es; apply Qle_shift_div_r; [assumption |].
        rewrite (Qmult_comm (stop - start)).
        apply Qmult_le_compat_r; [| assumption].
        unfold Qle; simpl; lia. }
      rewrite <- (Qplus_0_r stop).
      setoid_replace (stop + 0) with ((stop - start) + start) by ring.
      apply Qplus_le_compat; [assumption | apply Qle_refl].
Qed.

Lemma linspace_within (start stop : Q) (num : Z) (l : list Q) :
  start <= stop ->
  NumPy.linspace start stop num = Ok l ->
  Forall (fun x => start <= x /\ x <= stop) l.
Proof.
  intros Hss; unfold NumPy.linspace.
  destruct (Z.ltb_spec num 0) as [Hneg | Hnum]; [discriminate |].
  intros E; inversion E; subst; clear E.
  assert (Hy : Forall (fun x => start <= x /\ x <= stop)
                 (map (fun k => inject_Z k * ((stop - start) / inject_Z (num - 1))
                                + start) (Py.range num))).
  { apply Forall_forall; intros x Hx.
    apply in_map_iff in Hx as (k & <- & Hk); apply in_range in Hk.
    apply linspace_entry_within; [assumption | lia]. }
  destruct (1 <? num)%Z; [| exact Hy].
  apply set_last_forall; [exact Hy |].
  split; [assumption | apply Qle_refl].
Qed.

Close Scope Q_scope.

(** X16.  Whatever the wavelet wrapper returns, its frequency axis lies
    between the two frequency bounds it was given (for bounds in ascending
    order) and, for a non-zero sampling rate, its time axis has one entry
    k / sampling_rate per sample. *)
Theorem cwt_axes {T : Transforms}
        (signal : list Q) (sampling_rate : Z) (min_frequency max_frequency : Q)
        (nfreqbin : option Z) (show : bool) (f t : list Q) (m : matrix) :
  sampling_rate <> 0 ->
  (min_frequency <= max_frequency)%Q ->
  snd (continuous_wt signal sampling_rate min_frequency max_frequency
                     nfreqbin show) = Ok (f, t, m) ->
  Forall (fun x => min_frequency <= x /\ x <= max_frequency)%Q f /\
  length t = length signal /\
  forall k : nat,
    (k < length signal)%nat ->
    nth_error t k
    = Some (inject_Z (Z.of_nat k) / inject_Z sampling_rate)%Q.
Proof.
  intros Hfs Hb H.
  pose proof (continuous_wt_frequency _ _ _ _ _ _ _ _ _ H) as Hf.
  split; [eapply linspace_within; eauto |].
  unfold continuous_wt in H.
  apply iobind_ok in H as (freq & _ & H).
  apply iobind_ok in H as (cwtm & _ & H).
  apply iobind_ok in H as (u & _ & H).
  simpl in H; inversion H; subst; clear H.
  split; [rewrite length_map, length_range; lia |].
  intros k Hk; unfold Py.range; rewrite map_map, Nat2Z.id.
  rewrite nth_error_map, nth_error_seq.
  destruct (Nat.ltb_spec k (length signal)); [reflexivity | lia].
Qed.

Lemma cwt_axes_witness :
  let T := Reference.transforms in
  exists f t m,
    snd (continuous_wt (T := T) [1; 2; 3; 4]%Q 10 1 5 None false)
    = Ok (f, t, m) /\
    Forall (fun x => 1 <= x /\ x <= 5)%Q f /\
    length t = length [1; 2; 3; 4]%Q.
Proof.
  intros T.
  eexists; eexists; eexists; split; [vm_compute; reflexivity |].
  destruct (cwt_axes (T := T) [1; 2; 3; 4]%Q 10 1 5 None false _ _ _
                     ltac:(lia) ltac:(unfold Qle; simpl; lia) eq_refl)
    as (Hf & Ht & _).
  split; [exact Hf | exact Ht].
Defined.

(** X17.  On the wavelet path a negative sampling rate makes
    [sampling_rate // 2] negative: the frequency axis cannot be built and
    the call fails with a [ValueError] before the transform is invoked.
    With a sampling rate of 0 or 1 the axis is empty. *)
Theorem cwt_degenerate_sampling_rate {T : Transforms}
        (signal : list Q) (sampling_rate : Z) (min_frequency : Q)
        (max_frequency : bound) (method : string) (window : option Q)
        (nfreqbin overlap : option Z) (show : bool) :
  lower method = "cwt"%string \/ lower method = "wavelet"%string ->
  let run := signal_timefrequency signal sampling_rate min_frequency
                                  max_frequency method window nfreqbin
                                  overlap show in
  (sampling_rate < 0 ->
   exists msg, run = ([], Raise (ValueError msg))) /\
  (0 <= sampling_rate <= 1 ->
   forall f t m, snd run = Ok (f, t, m) -> f = []).
Proof.
  intros Hm run.
  assert (E : run = continuous_wt signal sampling_rate
                                  (sanitize_min min_frequency)
                                  (sanitize_max sampling_rate max_frequency)
                                  None show).
  { apply dispatch_cases; exact Hm. }
  split.
  - intros Hneg; rewrite E; unfold continuous_wt, NumPy.linspace.
    destruct (Z.ltb_spec (sampling_rate / 2) 0) as [_ | Hge];
      [simpl; eauto |].
    exfalso; dlia.
  - intros Hr f t m H; rewrite E in H.
    apply continuous_wt_frequency, linspace_length in H.
    assert (sampling_rate / 2 = 0) by dlia.
    destruct f; [reflexivity | simpl in H; lia].
Qed.

Lemma cwt_degenerate_sampling_rate_witness :
  exists msg,
    signal_timefrequency (T := Reference.transforms) [1; 2; 3]%Q (-100)
                         (4 # 100) Infinity "cwt" None None None true
    = ([], Raise (ValueError msg)).
Proof.
  apply (cwt_degenerate_sampling_rate (T := Reference.transforms)
           [1; 2; 3]%Q (-100) (4 # 100) Infinity "cwt" None None None true
           (or_introl eq_refl)).
  lia.
Defined.
